(** * Build and watch orchestration of nitro ([src/build.ts])

    A shallow embedding of [prepare], [build], [writeTypes], [_build] and
    [_watch], with the properties of the build specification stated over it.

    Conventions of the embedding.
    - A JavaScript string is a [string]; every character stands for one code
      unit in the range 0..255.
    - An [async] function is a computation in the monad [M]: a world (file
      store and trace of observable calls) is threaded through, and a
      rejected promise is the result [Throw].
    - The path functions of [pathe], the scanner of [./scan], the bundler
      configuration of [./rollup/config] and the template serialiser of
      [./utils] are fields of the environment record [Env]; so is the
      choice of the calls that reject.  Calls of [fs-extra], [rollup],
      [chokidar], the logger and the hooks are recorded in the trace. *)

From Stdlib Require Import ZArith NArith Ascii String List Bool Lia.
From stdpp Require Import base option list gmap strings.

Local Open Scope string_scope.
Local Open Scope list_scope.

(** ** JavaScript string primitives *)

Module Js.

Definition code (c : ascii) : N := N_of_ascii c.

(** The class [\s] of a regular expression, restricted to code units
    below 256: TAB, LF, VT, FF, CR, SPACE and NO-BREAK SPACE. *)
Definition is_ws (c : ascii) : bool :=
  let n := code c in
  ((9 <=? n) && (n <=? 13) || (n =? 32) || (n =? 160))%N.

(** The class [[a-z]]. *)
Definition is_lower (c : ascii) : bool :=
  let n := code c in ((97 <=? n) && (n <=? 122))%N.

(** The class [[0-9]]. *)
Definition is_digit (c : ascii) : bool :=
  let n := code c in ((48 <=? n) && (n <=? 57))%N.

(** Line terminators below 256: the characters [.] does not match. *)
Definition is_line_terminator (c : ascii) : bool :=
  let n := code c in ((n =? 10) || (n =? 13))%N.

Fixpoint all_chars (p : ascii -> bool) (s : string) : bool :=
  match s with
  | EmptyString => true
  | String c t => p c && all_chars p t
  end.

Fixpoint has_char (p : ascii -> bool) (s : string) : bool :=
  match s with
  | EmptyString => false
  | String c t => p c || has_char p t
  end.

Definition nonempty (s : string) : bool :=
  match s with EmptyString => false | _ => true end.

(** [s.startsWith(search)] *)
Definition startsWith (s search : string) : bool := String.prefix search s.

Fixpoint drop (n : nat) (s : string) : string :=
  match n, s with
  | O, _ => s
  | S k, EmptyString => EmptyString
  | S k, String _ t => drop k t
  end.

(** [s.replace(pat, rep)] for a string pattern [pat] and a replacement
    [rep] without [$]: the first occurrence only. *)
Fixpoint replace_first (pat rep s : string) : string :=
  if String.prefix pat s then rep +:+ drop (String.length pat) s
  else match s with
       | EmptyString => EmptyString
       | String c t => String c (replace_first pat rep t)
       end.

(** [xs.join(sep)] *)
Fixpoint join (sep : string) (xs : list string) : string :=
  match xs with
  | [] => ""
  | [x] => x
  | x :: rest => x +:+ sep +:+ join sep rest
  end.

(** [s.trim()] *)
Fixpoint trimStart (s : string) : string :=
  match s with
  | String c t => if is_ws c then trimStart t else s
  | EmptyString => EmptyString
  end.

Fixpoint trimEnd (s : string) : string :=
  match s with
  | EmptyString => EmptyString
  | String c t =>
      match trimEnd t with
      | EmptyString => if is_ws c then EmptyString else String c EmptyString
      | t' => String c t'
      end
  end.

Definition trim (s : string) : string := trimEnd (trimStart s).

(** Truthiness of a string, and of an optional string. *)
Definition truthy (s : string) : bool := nonempty s.

Definition truthy_opt (o : option string) : option string :=
  match o with
  | Some s => if truthy s then Some s else None
  | None => None
  end.

End Js.

(** ** Errors, worlds and the monad of asynchronous computations *)

Inductive JsError : Type :=
| Error (message : string)
| TypeError (message : string).

Definition message (e : JsError) : string :=
  match e with Error m => m | TypeError m => m end.

(** Observable calls, in the order they are issued. *)
Inductive Effect : Type :=
| EmptyDir (dir : string)
| ReadFile (file : string)
| WriteFile (file contents : string)
| LogStart (msg : string)
| LogError (msg : string)
| LogSuccess (msg : string)
| LogInfo (msg : string)
| ScanHandlers
| RollupRollup
| BundleWrite
| PrintFSTree (dir : string)
| CallHook (name : string)
| RollupWatch (id : nat)
| RollupWatcherClose (id : nat)
| FsWatch (patterns : list string) (ignoreInitial : bool)
| FsWatcherClose
| HookClose
| CallReload.

Record World : Type := mkWorld {
  fs : gmap string string;
  trace : list Effect
}.

Inductive Res (A : Type) : Type :=
| Ok (a : A)
| Throw (e : JsError).
Arguments Ok {A} a.
Arguments Throw {A} e.

Definition M (A : Type) : Type := World -> Res A * World.

Definition ret {A} (a : A) : M A := fun w => (Ok a, w).
Definition throw {A} (e : JsError) : M A := fun w => (Throw e, w).

Definition bind {A B} (m : M A) (k : A -> M B) : M B :=
  fun w => match m w with
           | (Ok a, w') => k a w'
           | (Throw e, w') => (Throw e, w')
           end.

(** [p.catch(h)] *)
Definition catch {A} (m : M A) (h : JsError -> M A) : M A :=
  fun w => match m w with
           | (Ok a, w') => (Ok a, w')
           | (Throw e, w') => h e w'
           end.

Notation "'let*' x := m 'in' k" := (bind m (fun x => k))
  (at level 10, x name, m at level 100, k at level 200).
Notation "m ;; k" := (bind m (fun _ => k))
  (at level 100, k at level 200, right associativity).

Definition when (b : bool) (m : M unit) : M unit := if b then m else ret tt.

Definition emit (e : Effect) : M unit :=
  fun w => (Ok tt, mkWorld (fs w) (trace w ++ [e])).

Definition lift {A} (r : Res A) : M A :=
  match r with Ok a => ret a | Throw e => throw e end.

(** ** Data model ([./types]) *)

Inductive HandlerRef : Type :=
| HandlerPath (path : string)   (* [typeof handler === 'string'] *)
| HandlerFn.                    (* an inline handler function *)

Record NitroEventHandler : Type := mkHandler {
  route : option string;
  handler : HandlerRef
}.

Record Output : Type := mkOutput {
  dir : string;
  publicDir : string;
  serverDir : string
}.

Record Commands : Type := mkCommands {
  preview : option string;
  deploy : option string
}.

(** The part of the bundler configuration that [build.ts] reads. *)
Record RollupConfig : Type := mkRollupConfig {
  output_dir : string;
  entryFileNames : string
}.

Record Options : Type := mkOptions {
  output : Output;
  buildDir : string;
  scanDirs : list string;
  handlers : list NitroEventHandler;
  dev : bool;
  preset : string;
  commands : Commands;
  logLevel : Z;
  rollupConfig : RollupConfig
}.

Record Nitro : Type := mkNitro {
  options : Options;
  scannedHandlers : list NitroEventHandler;
  vfs : gmap string string;
  (** the text [nitro.unimport.generateTypeDecarations(..)] returns, when
      [nitro.unimport] is set *)
  unimport : option string
}.

Definition set_scannedHandlers (hs : list NitroEventHandler) (n : Nitro) : Nitro :=
  mkNitro (options n) hs (vfs n) (unimport n).

Definition set_rollupConfig (rc : RollupConfig) (n : Nitro) : Nitro :=
  let o := options n in
  mkNitro (mkOptions (output o) (buildDir o) (scanDirs o) (handlers o) (dev o)
             (preset o) (commands o) (logLevel o) rc)
          (scannedHandlers n) (vfs n) (unimport n).

Record HtmlTemplate : Type := mkTemplate {
  src : string;
  contents : string;
  dst : string
}.

Record BuildInfo : Type := mkBuildInfo {
  date : string;
  bi_preset : string;
  bi_commands : Commands
}.

(** ** Environment: collaborators outside [build.ts] *)

Record Env : Type := mkEnv {
  (* pathe *)
  relative : string -> string -> string;
  join : list string -> string;
  resolve : list string -> string;
  (* process.cwd() and new Date() *)
  cwd : string;
  now : string;
  (* ./scan *)
  GLOB_SCAN_PATTERN : string;
  scan : Nitro -> Res (list NitroEventHandler);
  (* ./rollup/config *)
  getRollupConfig : Nitro -> RollupConfig;
  (* ./utils *)
  serializeTemplate : string -> string;
  (* JSON.stringify(buildInfo, null, 2) *)
  stringify : BuildInfo -> string;
  (* what the subscribers of 'nitro:document' do to the template record *)
  documentHook : HtmlTemplate -> Res HtmlTemplate;
  (* which calls of collaborators and of the file system reject *)
  fault : Effect -> option JsError
}.

(** ** Paths in the file store *)

Definition ends_with_slash (s : string) : bool :=
  match String.get (String.length s - 1) s with
  | Some c => Ascii.eqb c "/"
  | None => false
  end.

(** [p] lies strictly below the directory [d]: [d] is a prefix of [p] that
    ends at a path separator. *)
Definition path_inside (d p : string) : bool :=
  Js.startsWith p d &&
  (ends_with_slash d ||
   match String.get (String.length d) p with
   | Some c => Ascii.eqb c "/"
   | None => false
   end).

(** The directory [p] is [root] itself or lies below it. *)
Definition nested_under (root p : string) : bool :=
  String.eqb p root || path_inside root p.

(** What a call does to the file store. *)
Definition apply_effect (e : Effect) (files : gmap string string) : gmap string string :=
  match e with
  | EmptyDir d => filter (fun kv => path_inside d kv.1 = false) files
  | WriteFile f c => <[f := c]> files
  | _ => files
  end.

Section Build.

Context (E : Env).

(** A call that may reject: it is recorded, and takes effect when the
    environment lets it succeed. *)
Definition perform (e : Effect) : M unit :=
  fun w =>
    match fault E e with
    | Some err => (Throw err, mkWorld (fs w) (trace w ++ [e]))
    | None => (Ok tt, mkWorld (apply_effect e (fs w)) (trace w ++ [e]))
    end.

(** [fse.readFile(file, 'utf-8')] *)
Definition readFile (file : string) : M string :=
  fun w =>
    let w' := mkWorld (fs w) (trace w ++ [ReadFile file]) in
    match fault E (ReadFile file), fs w !! file with
    | None, Some c => (Ok c, w')
    | Some err, _ => (Throw err, w')
    | None, None => (Throw (Error "ENOENT: no such file or directory"), w')
    end.

(** Modelled from the spec: [writeFile] of [./utils] is not among the
    sources; it stores [contents] at [file]. *)
Definition writeFile (file contents : string) : M unit :=
  perform (WriteFile file contents).

(** [nitro.hooks.callHook(name, ..)] *)
Definition callHook (name : string) : M unit := perform (CallHook name).

(** ** [prepare] and [cleanupDir] *)

Definition cleanupDir (d : string) : M unit := perform (EmptyDir d).

Definition prepare (nitro : Nitro) : M unit :=
  let out := output (options nitro) in
  cleanupDir (dir out) ;;
  when (negb (Js.startsWith (publicDir out) (dir out)))
       (cleanupDir (publicDir out)) ;;
  when (negb (Js.startsWith (serverDir out) (dir out)))
       (cleanupDir (serverDir out)).

End Build.

(** ** [writeTypes] *)

(** The replacement [.replace(/\.[a-z]+$/, '')]: the leftmost dot that is
    followed by lower-case letters only, up to the end of the string, is
    removed together with them. *)
Fixpoint strip_extension (s : string) : string :=
match s with
| EmptyString => EmptyString
| String c t =>
    if Ascii.eqb c "." && Js.nonempty t && Js.all_chars Js.is_lower t
    then EmptyString
    else String c (strip_extension t)
end.

(** [routeTypes] is the object literal [{}]: its own properties are kept in
    the order of their creation, and a key it does not own may still be
    found on [Object.prototype]. *)
Definition RouteTypes : Type := list (string * list string).

Definition object_prototype_keys : list string :=
  [ "constructor"; "hasOwnProperty"; "isPrototypeOf"; "propertyIsEnumerable";
    "toLocaleString"; "toString"; "valueOf"; "__proto__";
    "__defineGetter__"; "__defineSetter__"; "__lookupGetter__";
    "__lookupSetter__" ].

Definition inherited (k : string) : bool :=
  existsb (String.eqb k) object_prototype_keys.

Fixpoint own (k : string) (o : RouteTypes) : option (list string) :=
match o with
| [] => None
| (k', v) :: rest => if String.eqb k k' then Some v else own k rest
end.

Fixpoint set_own (k : string) (v : list string) (o : RouteTypes) : RouteTypes :=
match o with
| [] => [(k, v)]
| (k', v') :: rest =>
    if String.eqb k k' then (k', v) :: rest else (k', v') :: set_own k v rest
end.

(** [routeTypes[r] = routeTypes[r] || []; routeTypes[r].push(t)].  When [r]
    is not an own property but names a member of [Object.prototype], the
    left operand of [||] is that member, which has no [push]. *)
Definition push_route (r t : string) (o : RouteTypes) : Res RouteTypes :=
  match own r o with
  | Some types => Ok (set_own r (types ++ [t]) o)
  | None =>
      if inherited r
      then Throw (TypeError "routeTypes[mw.route].push is not a function")
      else Ok (set_own r [t] o)
  end.

(** Array indices: canonical decimal numerals below [2^32 - 1]. *)
Fixpoint parse_decimal (acc : N) (s : string) : N :=
match s with
| EmptyString => acc
| String c t => parse_decimal (10 * acc + (Js.code c - 48))%N t
end.

Definition array_index (k : string) : option N :=
  match k with
  | EmptyString => None
  | String c t =>
      if Js.all_chars Js.is_digit k
         && (negb (Ascii.eqb c "0") || negb (Js.nonempty t))
         && (parse_decimal 0 k <? 4294967295)%N
      then Some (parse_decimal 0 k)
      else None
  end.

Fixpoint insert_by_index {A} (x : N * A) (l : list (N * A)) : list (N * A) :=
match l with
| [] => [x]
| y :: rest => if (x.1 <=? y.1)%N then x :: l else y :: insert_by_index x rest
end.

Definition index_entries (o : RouteTypes) : list (N * (string * list string)) :=
  omap (fun kv => match array_index kv.1 with
                  | Some n => Some (n, kv)
                  | None => None
                  end) o.

(** [Object.entries(o)]: array indices in ascending order, then the other
    keys in the order of their creation. *)
Definition entries (o : RouteTypes) : list (string * list string) :=
  map snd (foldr insert_by_index [] (index_entries o))
  ++ filter (fun kv => array_index kv.1 = None) o.

Definition type_of_import (relativePath : string) : string :=
  "Awaited<ReturnType<typeof import('" +:+ relativePath +:+ "').default>>".

Definition interface_entry (kv : string * list string) : string :=
  "    '" +:+ kv.1 +:+ "': " +:+ Js.join " | " kv.2.

Definition declaration_lines (routeTypes : RouteTypes) (autoImportedTypes : list string)
  : list string :=
  [ "// Generated by nitro";
    "declare module 'nitropack' {";
    "  type Awaited<T> = T extends PromiseLike<infer U> ? Awaited<U> : T";
    "  interface InternalApi {" ]
  ++ map interface_entry (entries routeTypes)
  ++ [ "  }"; "}" ]
  ++ autoImportedTypes
  ++ [ "export {}" ].

Definition newline : string := String (ascii_of_nat 10) EmptyString.

Section WriteTypes.

Context (E : Env).

(** The loop over [middleware]. *)
Fixpoint collectRouteTypes (typesDir : string) (middleware : list NitroEventHandler)
  (routeTypes : RouteTypes) : Res RouteTypes :=
match middleware with
| [] => Ok routeTypes
| mw :: rest =>
    match handler mw, Js.truthy_opt (route mw) with
    | HandlerPath h, Some r =>
        let relativePath := strip_extension (relative E typesDir h) in
        match push_route r (type_of_import relativePath) routeTypes with
        | Ok routeTypes' => collectRouteTypes typesDir rest routeTypes'
        | Throw e => Throw e
        end
    | _, _ => collectRouteTypes typesDir rest routeTypes
    end
end.

Definition autoImportedTypes (nitro : Nitro) : list string :=
  match unimport nitro with
  | Some text => [Js.trim text]
  | None => []
  end.

Definition routeTypesOf (nitro : Nitro) : Res RouteTypes :=
  collectRouteTypes (join E [buildDir (options nitro); "types"])
    (scannedHandlers nitro ++ handlers (options nitro)) [].

(** The text handed to [writeFile]. *)
Definition declaration_text (nitro : Nitro) : Res string :=
  match routeTypesOf nitro with
  | Ok routeTypes =>
      Ok (Js.join newline (declaration_lines routeTypes (autoImportedTypes nitro)))
  | Throw e => Throw e
  end.

Definition declaration_path (nitro : Nitro) : string :=
  join E [buildDir (options nitro); "types/nitro.d.ts"].

Definition writeTypes (nitro : Nitro) : M unit :=
  let* text := lift (declaration_text nitro) in
  writeFile E (declaration_path nitro) text.

End WriteTypes.

(** ** [_build] *)

(** Expansion of a replacement template against one match (GetSubstitution),
    for a pattern with one capture group and no named group: [$$], [$&],
    [$`], [$'], [$1] and [$01] are substituted, every other [$] stands for
    itself. *)
Fixpoint expand (tmpl matched before after g1 : string) : string :=
match tmpl with
| EmptyString => EmptyString
| String a t0 =>
    if negb (Ascii.eqb a "$") then String a (expand t0 matched before after g1)
    else
      match t0 with
      | EmptyString => "$"
      | String c t =>
          if Ascii.eqb c "$" then "$" +:+ expand t matched before after g1
          else if Ascii.eqb c "&" then matched +:+ expand t matched before after g1
          else if Ascii.eqb c "`" then before +:+ expand t matched before after g1
          else if Ascii.eqb c "'" then after +:+ expand t matched before after g1
          else if Js.is_digit c then
            match t with
            | String d t' =>
                if Ascii.eqb c "0" && Ascii.eqb d "1"
                then g1 +:+ expand t' matched before after g1
                else if Ascii.eqb c "1"
                then g1 +:+ expand t matched before after g1
                else "$" +:+ expand t0 matched before after g1
            | EmptyString =>
                if Ascii.eqb c "1" then g1
                else "$" +:+ expand t0 matched before after g1
            end
          else "$" +:+ expand t0 matched before after g1
      end
end.

(** The longest prefix without white space, and what follows it. *)
Fixpoint span_non_ws (s : string) : string * string :=
match s with
| EmptyString => (EmptyString, EmptyString)
| String c t =>
    if Js.is_ws c then (EmptyString, s)
    else let (run, rest) := span_non_ws t in (String c run, rest)
end.

(** A match of [/\s\.\/([^\s]+)/] at the head of [s]: the capture group and
    the remainder of [s]. *)
Definition match_at (s : string) : option (string * string) :=
  match s with
  | String c (String c1 (String c2 t)) =>
      if Js.is_ws c && Ascii.eqb c1 "." && Ascii.eqb c2 "/"
      then match span_non_ws t with
           | (EmptyString, _) => None
           | (run, rest) => Some (run, rest)
           end
      else None
  | _ => None
  end.

(** [input.replaceAll(/\s\.\/([^\s]+)/g, tmpl)], scanning from the left;
    [before] is the part of the input already passed and [skip] the number
    of characters that still belong to the last match. *)
Fixpoint replaceAll_from (tmpl before : string) (skip : nat) (s : string) : string :=
match s with
| EmptyString => EmptyString
| String c t =>
    match skip with
    | S k => replaceAll_from tmpl (before +:+ String c EmptyString) k t
    | O =>
        match match_at s with
        | Some (run, rest) =>
            expand tmpl (String c ("./" +:+ run)) before rest run
            +:+ replaceAll_from tmpl (before +:+ String c EmptyString)
                  (2 + String.length run) t
        | None =>
            String c (replaceAll_from tmpl (before +:+ String c EmptyString) 0 t)
        end
    end
end.

(** The replacement template [` ${rOutput}/$1`]. *)
Definition hintTemplate (rOutput : string) : string := " " +:+ rOutput +:+ "/$1".

Definition rewriteRelativePaths (rOutput input : string) : string :=
  replaceAll_from (hintTemplate rOutput) EmptyString 0 input.

Section OneShot.

Context (E : Env).

(** [scanHandlers] of [./scan] stores its result in [nitro.scannedHandlers]. *)
Definition scanHandlers (nitro : Nitro) : M Nitro :=
  emit ScanHandlers ;;
  let* hs := lift (scan E nitro) in
  ret (set_scannedHandlers hs nitro).

Definition buildInfoOf (nitro : Nitro) : BuildInfo :=
  mkBuildInfo (now E) (preset (options nitro))
    (mkCommands (preview (commands (options nitro)))
                (deploy (commands (options nitro)))).

Definition hint (verb : string) (rOutput : string) (command : option string) : M unit :=
  match Js.truthy_opt command with
  | Some c =>
      emit (LogInfo ("You can " +:+ verb +:+ " this build using `"
                     +:+ rewriteRelativePaths rOutput c +:+ "`"))
  | None => ret tt
  end.

Definition _build (nitro0 : Nitro) : M string :=
  let* nitro := scanHandlers nitro0 in
  writeTypes E nitro ;;
  emit (LogStart "Building server...") ;;
  catch (perform E RollupRollup)
        (fun error =>
           emit (LogError ("Rollup error: " +:+ message error)) ;;
           throw error) ;;
  emit (LogStart "Writing server bundle...") ;;
  perform E BundleWrite ;;
  let nitroConfigPath := resolve E [dir (output (options nitro)); "nitro.json"] in
  let buildInfo := buildInfoOf nitro in
  writeFile E nitroConfigPath (stringify E buildInfo) ;;
  emit (LogSuccess "Server built") ;;
  when (1 <? logLevel (options nitro))%Z
       (perform E (PrintFSTree (serverDir (output (options nitro))))) ;;
  callHook E "nitro:compiled" ;;
  let rOutput := relative E (cwd E) (dir (output (options nitro))) in
  hint "preview" rOutput (preview (bi_commands buildInfo)) ;;
  hint "deploy" rOutput (deploy (bi_commands buildInfo)) ;;
  ret (resolve E [output_dir (rollupConfig (options nitro));
                  entryFileNames (rollupConfig (options nitro))]).

End OneShot.

(** ** [_watch] *)

(** Where the body of [reload] is suspended. *)
Inductive ReloadPhase : Type :=
| Idle              (* no run of the body is in progress *)
| ClosingPrevious   (* at [await rollupWatcher.close()] *)
| Scanning          (* at [await scanHandlers(nitro)] *)
| WritingTypes.     (* at [await writeTypes(nitro)] *)

(** The variables the closures of [_watch] share. *)
Record WatchState : Type := mkWatch {
  w_nitro : Nitro;
  rollupWatcher : option nat;   (* [undefined] until the first assignment *)
  sessions : nat;               (* bundler watch sessions started so far *)
  phase : ReloadPhase;
  reloadCalls : nat             (* calls of the debounced [reload] *)
}.

Inductive WatchEvent : Type :=
| FsEvent (event : string)  (* chokidar reports [event] to the 'all' listener *)
| ReloadRun                 (* the debounce device starts the body of [reload] *)
| Resume                    (* the promise the body awaits is fulfilled *)
| Close.                    (* the 'close' hook is called *)

Definition watchReloadEvents : list string :=
  [ "add"; "addDir"; "unlink"; "unlinkDir" ].

Section Watch.

Context (E : Env).

Definition watchPatterns (dirs : list string) : list string :=
  flat_map (fun d => [ join E [d; "api"];
                       join E [d; "middleware"; GLOB_SCAN_PATTERN E] ]) dirs.

(** A call [reload()] of the debounced function. *)
Definition reload (st : WatchState) : M WatchState :=
  emit CallReload ;;
  ret (mkWatch (w_nitro st) (rollupWatcher st) (sessions st) (phase st)
               (S (reloadCalls st))).

(** The listener [.on('all', (event) => ..)]. *)
Definition on_all (event : string) (st : WatchState) : M WatchState :=
  if existsb (String.eqb event) watchReloadEvents then reload st else ret st.

(** The handler [nitro.hooks.hook('close', () => ..)]. *)
Definition on_close (st : WatchState) : M WatchState :=
  match rollupWatcher st with
  | None =>
      throw (TypeError "Cannot read properties of undefined (reading 'close')")
  | Some h =>
      emit (RollupWatcherClose h) ;;
      emit FsWatcherClose ;;
      ret st
  end.

(** [startRollupWatcher]: a new bundler watch session, named by its
    number. *)
Definition startRollupWatcher (st : WatchState) : M nat :=
  emit (RollupWatch (sessions st)) ;;
  ret (sessions st).

(** The body of [reload] from its start to its first [await]. *)
Definition reload_start (st : WatchState) : M WatchState :=
  match rollupWatcher st with
  | Some h =>
      emit (RollupWatcherClose h) ;;
      ret (mkWatch (w_nitro st) (rollupWatcher st) (sessions st)
                   ClosingPrevious (reloadCalls st))
  | None =>
      emit ScanHandlers ;;
      ret (mkWatch (w_nitro st) (rollupWatcher st) (sessions st)
                   Scanning (reloadCalls st))
  end.

(** The body of [reload] from one [await] to the next. *)
Definition reload_resume (st : WatchState) : M WatchState :=
  match phase st with
  | Idle => ret st
  | ClosingPrevious =>
      emit ScanHandlers ;;
      ret (mkWatch (w_nitro st) (rollupWatcher st) (sessions st)
                   Scanning (reloadCalls st))
  | Scanning =>
      let* hs := lift (scan E (w_nitro st)) in
      let* watcher := startRollupWatcher st in
      ret (mkWatch (set_scannedHandlers hs (w_nitro st)) (Some watcher)
                   (S (sessions st)) WritingTypes (reloadCalls st))
  | WritingTypes =>
      writeTypes E (w_nitro st) ;;
      ret (mkWatch (w_nitro st) (rollupWatcher st) (sessions st)
                   Idle (reloadCalls st))
  end.

Definition watch_step (ev : WatchEvent) (st : WatchState) : M WatchState :=
  match ev with
  | FsEvent event => on_all event st
  | ReloadRun =>
      (* one run of the body at a time *)
      match phase st with Idle => reload_start st | _ => ret st end
  | Resume => reload_resume st
  | Close => on_close st
  end.

(** A run ends at the first step that throws. *)
Fixpoint run_events (evs : list WatchEvent) (st : WatchState) : M WatchState :=
match evs with
| [] => ret st
| ev :: rest => let* st' := watch_step ev st in run_events rest st'
end.

(** [_watch] up to its final [await reload()]. *)
Definition _watch (nitro : Nitro) : M WatchState :=
  emit (FsWatch (watchPatterns (scanDirs (options nitro))) true) ;;
  emit HookClose ;;
  reload (mkWatch nitro None 0 Idle 0).

End Watch.

(** ** [build] *)

(** [.replace(/.html$/, '.mjs')]: the dot stands for any character but a
    line terminator. *)
Fixpoint replace_html_suffix (s : string) : string :=
match s with
| EmptyString => EmptyString
| String c t =>
    if negb (Js.is_line_terminator c) && String.eqb t "html"
    then ".mjs"
    else String c (replace_html_suffix t)
end.

Inductive BuildResult : Type :=
| Built (entry : string)
| Watching (st : WatchState).

Section BuildEntry.

Context (E : Env).

Definition htmlTemplateOf (nitro : Nitro) : HtmlTemplate :=
  let htmlSrc := resolve E [buildDir (options nitro); "views/app.template.html"] in
  mkTemplate htmlSrc EmptyString
    (Js.replace_first "app.template.mjs" "document.template.mjs"
       (replace_html_suffix htmlSrc)).

(** [nitro.vfs[src] || await fse.readFile(src, 'utf-8').catch(() => '')] *)
Definition loadContents (nitro : Nitro) (file : string) : M string :=
  match Js.truthy_opt (vfs nitro !! file) with
  | Some c => ret c
  | None => catch (readFile E file) (fun _ => ret EmptyString)
  end.

(** The block under [// Compile html template]. *)
Definition compileHtmlTemplate (nitro : Nitro) : M unit :=
  let t0 := htmlTemplateOf nitro in
  let* c := loadContents nitro (src t0) in
  if Js.truthy c then
    emit (CallHook "nitro:document") ;;
    let* t := lift (documentHook E (mkTemplate (src t0) c (dst t0))) in
    writeFile E (dst t) ("export default " +:+ serializeTemplate E (contents t))
  else ret tt.

(** What [build] does after the template block. *)
Definition bundle (nitro0 : Nitro) : M BuildResult :=
  let nitro := set_rollupConfig (getRollupConfig E nitro0) nitro0 in
  callHook E "nitro:rollup:before" ;;
  if dev (options nitro)
  then let* st := _watch E nitro in ret (Watching st)
  else let* entry := _build E nitro in ret (Built entry).

Definition build (nitro : Nitro) : M BuildResult :=
  compileHtmlTemplate nitro ;;
  bundle nitro.

End BuildEntry.

(** ** Reference instances of the path helpers

    Instances on which the functions above can be evaluated.  They agree
    with [pathe] on absolute, normalised POSIX paths. *)

Module Pathe.

Fixpoint split_from (cur : string) (s : string) : list string :=
match s with
| EmptyString => [cur]
| String c t =>
    if Ascii.eqb c "/" then cur :: split_from EmptyString t
    else split_from (cur +:+ String c EmptyString) t
end.

(** [s.split('/')] *)
Definition split (s : string) : list string := split_from EmptyString s.

Fixpoint strip_common (a b : list string) : list string * list string :=
match a, b with
| x :: a', y :: b' => if String.eqb x y then strip_common a' b' else (a, b)
| _, _ => (a, b)
end.

Definition relative (from to : string) : string :=
  let (f, t) := strip_common (split from) (split to) in
  Js.join "/" (map (fun _ => "..") f ++ t).

Definition join (segments : list string) : string :=
  Js.join "/" (filter (fun x => Js.nonempty x = true) segments).

Definition resolve (segments : list string) : string :=
  foldl (fun acc x => if Js.startsWith x "/" then x
                      else if Js.nonempty acc then acc +:+ "/" +:+ x else x)
        EmptyString segments.

End Pathe.

(** Modelled from the spec: [GLOB_SCAN_PATTERN] of [./scan] is not among
    the sources; this is the value with which the middleware pattern reads
    [<scanDir>/middleware/**], as the spec writes it. *)
Definition specGlobPattern : string := "**".

(** An environment in which every collaborator succeeds; the template
    serialiser and the JSON printer are stand-ins. *)
Definition quietEnv : Env :=
  mkEnv Pathe.relative Pathe.join Pathe.resolve
        "/app" "2022-01-01T00:00:00.000Z"
        specGlobPattern
        (fun n => Ok (scannedHandlers n))
        (fun n => rollupConfig (options n))
        (fun c => "`" +:+ c +:+ "`")
        (fun b => "{ preset: " +:+ bi_preset b +:+ " }")
        (fun t => Ok t)
        (fun _ => None).

(** The same environment, with the calls [failing] rejecting with [err]. *)
Definition failingEnv (failing : Effect -> bool) (err : JsError) : Env :=
  mkEnv Pathe.relative Pathe.join Pathe.resolve
        (cwd quietEnv) (now quietEnv) (GLOB_SCAN_PATTERN quietEnv)
        (scan quietEnv) (getRollupConfig quietEnv)
        (serializeTemplate quietEnv) (stringify quietEnv)
        (documentHook quietEnv)
        (fun e => if failing e then Some err else None).

Definition is_rollup (e : Effect) : bool :=
  match e with RollupRollup => true | _ => false end.

(** Sample configurations. *)
Definition sampleOptions (out : Output) (hs : list NitroEventHandler) : Options :=
  mkOptions out "/app/.nitro" ["/app"] hs false "node"
            (mkCommands (Some "node ./server/index.mjs") None) 1
            (mkRollupConfig "/app/.output/server" "index.mjs").

Definition sampleNitro (out : Output) (scanned configured : list NitroEventHandler)
  : Nitro :=
  mkNitro (sampleOptions out configured) scanned ∅ None.

Definition nestedOutput : Output :=
  mkOutput "/app/.output" "/app/.output/public" "/app/.output/server".

Definition siblingOutput : Output :=
  mkOutput "/app/out" "/app/out-public" "/app/out/server".

Definition helloHandler : NitroEventHandler :=
  mkHandler (Some "/api/hello") (HandlerPath "/src/api/hello.ts").

Definition emptyWorld : World := mkWorld ∅ [].

(** The patterns as the spec names them: [<scanDir>/api/**] and
    [<scanDir>/middleware/**] for every scan directory. *)
Definition claimedPatterns (dirs : list string) : list string :=
  flat_map (fun d => [ d +:+ "/api/**"; d +:+ "/middleware/**" ]) dirs.

Definition constructorHandler : NitroEventHandler :=
  mkHandler (Some "constructor") (HandlerPath "/src/api/hello.ts").

Definition templatePath : string := "/app/.nitro/views/app.template.html".

(** A configuration whose overlay maps the template source to the empty
    string. *)
Definition emptyOverlayNitro : Nitro :=
  mkNitro (sampleOptions nestedOutput []) [] {[ templatePath := "" ]} None.

Definition without_overlay (file : string) (n : Nitro) : Nitro :=
  mkNitro (options n) (scannedHandlers n) (delete file (vfs n)) (unimport n).

Definition closeError : JsError :=
  TypeError "Cannot read properties of undefined (reading 'close')".

Definition is_dollar (c : ascii) : bool := Ascii.eqb c "$".

(** Somewhere in [s] the pattern [/\s\.\/([^\s]+)/] matches. *)
Fixpoint has_match (s : string) : bool :=
match s with
| EmptyString => false
| String _ t =>
    match match_at s with Some _ => true | None => has_match t end
end.

(** The rewrite as the claim words it: the white space of the match is
    kept, and [./] gives way to the output root and a slash. *)
Fixpoint claimed_from (rOutput : string) (skip : nat) (s : string) : string :=
match s with
| EmptyString => EmptyString
| String c t =>
    match skip with
    | S k => claimed_from rOutput k t
    | O =>
        match match_at s with
        | Some (run, _) =>
            String c (rOutput +:+ "/" +:+ run)
            +:+ claimed_from rOutput (2 + String.length run) t
        | None => String c (claimed_from rOutput 0 t)
        end
    end
end.

Definition claimedRewrite (rOutput input : string) : string :=
  claimed_from rOutput 0 input.

Definition tab : string := String (ascii_of_nat 9) EmptyString.

(** ** [copyPublicAssets] *)

(** An element of [nitro.options.publicAssets]. *)
Record PublicAssetDir : Type := mkAsset {
  asset_dir : string;
  baseURL : string
}.

Section PublicAssets.

Context (E : Env).

(** [isDirectory] and [prettyPath] of [./utils] and [fse.copy] are not
    among the sources: they are parameters. *)
Variable isDirectory : string -> M bool.
Variable copy : string -> string -> M unit.
Variable prettyPath : string -> string.

(** The loop over [nitro.options.publicAssets]. *)
Fixpoint copyAssetDirs (publicDir : string) (assets : list PublicAssetDir) : M unit :=
match assets with
| [] => ret tt
| asset :: rest =>
    let* present := isDirectory (asset_dir asset) in
    when present (copy (asset_dir asset) (join E [publicDir; baseURL asset])) ;;
    copyAssetDirs publicDir rest
end.

Definition copyPublicAssets (nitro : Nitro) (publicAssets : list PublicAssetDir)
  : M unit :=
  copyAssetDirs (publicDir (output (options nitro))) publicAssets ;;
  emit (LogSuccess ("Generated public "
                    +:+ prettyPath (publicDir (output (options nitro))))).

End PublicAssets.

(** ** Vocabulary of the properties *)

(** The route and the type expression a handler contributes to the
    declaration file, if it contributes. *)
Definition typed_route (E : Env) (typesDir : string) (mw : NitroEventHandler)
  : option (string * string) :=
  match handler mw, Js.truthy_opt (route mw) with
  | HandlerPath h, Some r =>
      Some (r, type_of_import (strip_extension (relative E typesDir h)))
  | _, _ => None
  end.

(** The type expressions of the handlers of route [r], in the order of the
    handlers. *)
Definition types_for (E : Env) (typesDir r : string) (mws : list NitroEventHandler)
  : list string :=
  omap (fun mw => match typed_route E typesDir mw with
                  | Some (r', t) => if String.eqb r r' then Some t else None
                  | None => None
                  end) mws.

(** [pat] occurs somewhere in [s]. *)
Fixpoint occurs (pat s : string) : bool :=
String.prefix pat s
|| match s with
   | EmptyString => false
   | String _ t => occurs pat t
   end.

(** Every call a computation issues satisfies [P]. *)
Definition emits_only {A} (P : Effect -> Prop) (m : M A) : Prop :=
  forall w, exists issued,
    trace (m w).2 = trace w ++ issued /\ Forall P issued.

(** The hint lines [_build] logs for a pair of command templates. *)
Definition hint_calls (rOutput : string) (cmds : Commands) : list Effect :=
  match Js.truthy_opt (preview cmds) with
  | Some c => [LogInfo ("You can preview this build using `"
                        +:+ rewriteRelativePaths rOutput c +:+ "`")]
  | None => []
  end
  ++ match Js.truthy_opt (deploy cmds) with
     | Some c => [LogInfo ("You can deploy this build using `"
                           +:+ rewriteRelativePaths rOutput c +:+ "`")]
     | None => []
     end.

(** Sample collaborators for [copyPublicAssets]: only the directory
    [/app/public] exists; copying is recorded as a write of the target. *)
Definition sampleIsDirectory (d : string) : M bool :=
  ret (String.eqb d "/app/public").

Definition sampleCopy (from to : string) : M unit :=
  emit (WriteFile to from).


(** Calls only [_watch] and its closures issue, and calls only the
    one-shot bundling of [_build] issues. *)
Definition watch_call (e : Effect) : bool :=
  match e with
  | FsWatch _ _ | HookClose | CallReload
  | RollupWatch _ | RollupWatcherClose _ | FsWatcherClose => true
  | _ => false
  end.

Definition oneshot_call (e : Effect) : bool :=
  match e with
  | RollupRollup | BundleWrite => true
  | _ => false
  end.

(** * Properties *)

(** ** Monad laws used below *)

Lemma bind_ok {A B} (m : M A) (k : A -> M B) w a w' :
  m w = (Ok a, w') -> bind m k w = k a w'.
Proof. intros H. unfold bind. now rewrite H. Qed.

Lemma bind_throw {A B} (m : M A) (k : A -> M B) w e w' :
  m w = (Throw e, w') -> bind m k w = (Throw e, w').
Proof. intros H. unfold bind. now rewrite H. Qed.

Lemma emit_run (e : Effect) w :
  emit e w = (Ok tt, mkWorld (fs w) (trace w ++ [e])).
Proof. reflexivity. Qed.

Lemma perform_ok E e w :
  fault E e = None ->
  perform E e w = (Ok tt, mkWorld (apply_effect e (fs w)) (trace w ++ [e])).
Proof. intros H. unfold perform. now rewrite H. Qed.

Lemma perform_fail E e w err :
  fault E e = Some err ->
  perform E e w = (Throw err, mkWorld (fs w) (trace w ++ [e])).
Proof. intros H. unfold perform. now rewrite H. Qed.

(** ** Concatenation of strings *)

Lemma sapp_nil_l (s : string) : EmptyString +:+ s = s.
Proof. reflexivity. Qed.

Lemma sapp_cons (c : ascii) (s t : string) : String c s +:+ t = String c (s +:+ t).
Proof. reflexivity. Qed.

Lemma sapp_nil_r (s : string) : s +:+ EmptyString = s.
Proof. induction s as [|c s IH]; [reflexivity|]. now rewrite sapp_cons, IH. Qed.

Lemma sapp_assoc (s t u : string) : s +:+ (t +:+ u) = (s +:+ t) +:+ u.
Proof. induction s as [|c s IH]; [reflexivity|]. now rewrite !sapp_cons, IH. Qed.

Lemma slength_app (s t : string) :
  String.length (s +:+ t) = String.length s + String.length t.
Proof. induction s as [|c s IH]; [reflexivity|]. rewrite sapp_cons. simpl. now rewrite IH. Qed.

(** ** The model on concrete inputs *)

Example strip_extension_samples :
  strip_extension "../../src/api/hello.ts" = "../../src/api/hello"
  /\ strip_extension "../lib.v2/handler" = "../lib.v2/handler"
  /\ strip_extension "../../node_modules/pkg/index.d.ts" = "../../node_modules/pkg/index.d".
Proof. repeat split; reflexivity. Qed.

Example entries_order :
  map fst (entries [("/b", ["B"]); ("10", ["X"]); ("/a", ["A"]); ("2", ["Y"])])
  = ["2"; "10"; "/b"; "/a"].
Proof. reflexivity. Qed.

Example push_route_samples :
  push_route "/a" "T2" [("/a", ["T1"]); ("/b", ["U"])]
  = Ok [("/a", ["T1"; "T2"]); ("/b", ["U"])]
  /\ push_route "/c" "T" [("/a", ["T1"])] = Ok [("/a", ["T1"]); ("/c", ["T"])]
  /\ push_route "toString" "T" []
     = Throw (TypeError "routeTypes[mw.route].push is not a function").
Proof. repeat split; reflexivity. Qed.

Example expand_samples :
  expand "[$$|$&|$1|$01|$10|$2|$0|$<]" " ./x" "a" "b" "x"
  = "[$| ./x|x|x|x0|$2|$0|$<]"
  /\ expand "$`-$'" " ./x" "a" "b" "x" = "a-b".
Proof. split; reflexivity. Qed.

Example build_succeeds :
  let r := _build quietEnv (sampleNitro nestedOutput [] []) emptyWorld in
  r.1 = Ok "/app/.output/server/index.mjs"
  /\ map (fun e => match e with WriteFile f _ => f | _ => "" end) (trace r.2)
     = [ ""; "/app/.nitro/types/nitro.d.ts"; ""; ""; ""; "";
         "/app/.output/nitro.json"; ""; ""; "" ]
  /\ last (trace r.2)
     = Some (LogInfo "You can preview this build using `node .output/server/index.mjs`").
Proof. repeat split; reflexivity. Qed.

Example declaration_sample :
  declaration_text quietEnv (sampleNitro nestedOutput [helloHandler] [])
  = Ok (Js.join newline
          [ "// Generated by nitro";
            "declare module 'nitropack' {";
            "  type Awaited<T> = T extends PromiseLike<infer U> ? Awaited<U> : T";
            "  interface InternalApi {";
            "    '/api/hello': Awaited<ReturnType<typeof import('../../../src/api/hello').default>>";
            "  }";
            "}";
            "export {}" ]).
Proof. reflexivity. Qed.

(** ** [prepare] *)

Lemma prefix_refl (s : string) : String.prefix s s = true.
Proof.
  induction s as [|c s IH]; simpl; [reflexivity|].
  destruct (ascii_dec c c); [assumption | congruence].
Qed.

Lemma nested_under_startsWith root p :
  nested_under root p = true -> Js.startsWith p root = true.
Proof.
  unfold nested_under, path_inside. intros H.
  apply orb_true_iff in H as [H | H].
  - apply String.eqb_eq in H. subst. apply prefix_refl.
  - now apply andb_true_iff in H as [H _].
Qed.

(** Directories nested under the output root are not cleared again: the
    output root is the only directory [prepare] clears, whether or not the
    clearing succeeds. *)
Lemma prepare_nested_clears_root_only E nitro w :
  nested_under (dir (output (options nitro))) (publicDir (output (options nitro))) = true ->
  nested_under (dir (output (options nitro))) (serverDir (output (options nitro))) = true ->
  trace (prepare E nitro w).2
  = trace w ++ [EmptyDir (dir (output (options nitro)))].
Proof.
  intros Hp Hs. apply nested_under_startsWith in Hp, Hs.
  unfold prepare, cleanupDir. rewrite Hp, Hs. simpl.
  unfold bind, perform, when, ret.
  destruct (fault E _); reflexivity.
Qed.

(** When neither path starts with the output root, the three directories
    are cleared one after the other. *)
Lemma prepare_disjoint_clears_three E nitro w :
  (forall e, fault E e = None) ->
  Js.startsWith (publicDir (output (options nitro))) (dir (output (options nitro))) = false ->
  Js.startsWith (serverDir (output (options nitro))) (dir (output (options nitro))) = false ->
  (prepare E nitro w).1 = Ok tt /\
  trace (prepare E nitro w).2
  = trace w ++ [ EmptyDir (dir (output (options nitro)));
                 EmptyDir (publicDir (output (options nitro)));
                 EmptyDir (serverDir (output (options nitro))) ].
Proof.
  intros Hf Hp Hs. unfold prepare, cleanupDir. rewrite Hp, Hs. simpl.
  unfold bind, perform, when. rewrite !Hf. simpl.
  split; [reflexivity|]. now rewrite <- !app_assoc.
Qed.

(** C3, at the output layout [/app/out], [/app/out-public],
    [/app/out/server]: the public directory is not nested under the output
    root, yet [prepare] clears the output root only, because the path of the
    public directory starts with the characters of the root; a file left in
    the public directory survives. *)
Theorem prepare_skips_prefix_sibling :
  let nitro := sampleNitro siblingOutput [] [] in
  let w := mkWorld {[ "/app/out/server/index.mjs" := "old bundle";
                      "/app/out-public/stale.txt" := "old asset" ]} [] in
  nested_under "/app/out" "/app/out-public" = false /\
  (prepare quietEnv nitro w).1 = Ok tt /\
  trace (prepare quietEnv nitro w).2 = [EmptyDir "/app/out"] /\
  fs (prepare quietEnv nitro w).2 !! "/app/out/server/index.mjs" = None /\
  fs (prepare quietEnv nitro w).2 !! "/app/out-public/stale.txt" = Some "old asset".
Proof. vm_compute. repeat split; reflexivity. Qed.

(** ** The filesystem watcher of [_watch] *)

Lemma not_reload_event event :
  event <> "add" -> event <> "addDir" -> event <> "unlink" -> event <> "unlinkDir" ->
  existsb (String.eqb event) watchReloadEvents = false.
Proof.
  intros H1 H2 H3 H4. simpl.
  repeat match goal with
         | |- context [String.eqb event ?k] =>
             destruct (String.eqb_spec event k); [congruence|]
         end.
  reflexivity.
Qed.

(** C6: an event reported by the filesystem watcher calls [reload], once,
    when it is one of [add], [addDir], [unlink], [unlinkDir]; any other
    event, and [change] in particular, leaves the state and the world as
    they are. *)
Theorem reload_only_on_structural_events E event st w :
  (event = "add" \/ event = "addDir" \/ event = "unlink" \/ event = "unlinkDir" ->
   watch_step E (FsEvent event) st w
   = (Ok (mkWatch (w_nitro st) (rollupWatcher st) (sessions st) (phase st)
                  (S (reloadCalls st))),
      mkWorld (fs w) (trace w ++ [CallReload])))
  /\ (event <> "add" /\ event <> "addDir" /\ event <> "unlink" /\ event <> "unlinkDir" ->
      watch_step E (FsEvent event) st w = (Ok st, w))
  /\ watch_step E (FsEvent "change") st w = (Ok st, w).
Proof.
  split; [|split].
  - intros [-> | [-> | [-> | ->]]]; reflexivity.
  - intros (H1 & H2 & H3 & H4). simpl. unfold on_all.
    now rewrite not_reload_event.
  - reflexivity.
Qed.

Lemma reload_only_on_structural_events_witness :
  watch_step quietEnv (FsEvent "unlinkDir")
    (mkWatch (sampleNitro nestedOutput [] []) None 0 Idle 0) emptyWorld
  = (Ok (mkWatch (sampleNitro nestedOutput [] []) None 0 Idle 1),
     mkWorld ∅ [CallReload])
  /\ watch_step quietEnv (FsEvent "ready")
       (mkWatch (sampleNitro nestedOutput [] []) None 0 Idle 0) emptyWorld
     = (Ok (mkWatch (sampleNitro nestedOutput [] []) None 0 Idle 0), emptyWorld).
Proof.
  pose proof (reload_only_on_structural_events quietEnv "unlinkDir"
                (mkWatch (sampleNitro nestedOutput [] []) None 0 Idle 0) emptyWorld)
    as (Hyes & _ & _).
  pose proof (reload_only_on_structural_events quietEnv "ready"
                (mkWatch (sampleNitro nestedOutput [] []) None 0 Idle 0) emptyWorld)
    as (_ & Hno & _).
  split.
  - apply Hyes. right. right. right. reflexivity.
  - apply Hno. repeat split; discriminate.
Defined.

(** The patterns subscribed for [/app] are the directory [/app/api] and the
    scan glob under [/app/middleware]; they are not the two globs of the
    claim. *)
Lemma watchPatterns_api_without_glob :
  watchPatterns quietEnv ["/app"] = ["/app/api"; "/app/middleware/**"]
  /\ watchPatterns quietEnv ["/app"] <> claimedPatterns ["/app"].
Proof. split; [reflexivity | discriminate]. Qed.

Lemma watchPatterns_cons E d dirs :
  watchPatterns E (d :: dirs)
  = join E [d; "api"] :: join E [d; "middleware"; GLOB_SCAN_PATTERN E]
    :: watchPatterns E dirs.
Proof. reflexivity. Qed.

(** C7, amended: every scan directory contributes two patterns, in the
    order of the scan directories: the [api] directory itself, joined to the
    scan directory without a glob, and the scan glob [GLOB_SCAN_PATTERN]
    joined below the [middleware] directory; [_watch] subscribes the
    watcher over exactly this list, with [ignoreInitial] set. *)
Theorem watchPatterns_per_scan_dir E (nitro : Nitro) (w : World) :
  let dirs := scanDirs (options nitro) in
  length (watchPatterns E dirs) = 2 * length dirs
  /\ (forall (i : nat) (d : string),
        dirs !! i = Some d ->
        watchPatterns E dirs !! (2 * i) = Some (join E [d; "api"])
        /\ watchPatterns E dirs !! (2 * i + 1)
           = Some (join E [d; "middleware"; GLOB_SCAN_PATTERN E]))
  /\ trace (_watch E nitro w).2
     = trace w ++ [FsWatch (watchPatterns E dirs) true; HookClose; CallReload].
Proof.
  intros dirs. split; [|split].
  - induction dirs as [|d ds IH]; [reflexivity|].
    rewrite watchPatterns_cons. simpl length. rewrite IH. lia.
  - induction dirs as [|d ds IH]; intros i x Hi; [discriminate|].
    rewrite watchPatterns_cons. destruct i as [|i].
    + injection Hi as ->. split; reflexivity.
    + replace (2 * S i) with (S (S (2 * i))) by lia.
      replace (S (S (2 * i)) + 1) with (S (S (2 * i + 1))) by lia.
      simpl in Hi. exact (IH i x Hi).
  - unfold _watch, reload, bind, emit, ret. simpl. now rewrite <- !app_assoc.
Qed.

Lemma watchPatterns_per_scan_dir_witness :
  watchPatterns quietEnv ["/app"; "/layer"] !! 2 = Some "/layer/api"
  /\ watchPatterns quietEnv ["/app"; "/layer"] !! 3 = Some "/layer/middleware/**".
Proof.
  pose proof (watchPatterns_per_scan_dir quietEnv
                (mkNitro (mkOptions nestedOutput "/app/.nitro" ["/app"; "/layer"] []
                            true "node" (mkCommands None None) 1
                            (mkRollupConfig "/app/.output/server" "index.mjs"))
                         [] ∅ None) emptyWorld) as (_ & H & _).
  exact (H 1 "/layer" eq_refl).
Defined.

(** ** [_build] when the bundler rejects *)

Lemma writeTypes_ok E nitro text w :
  declaration_text E nitro = Ok text ->
  fault E (WriteFile (declaration_path E nitro) text) = None ->
  writeTypes E nitro w
  = (Ok tt, mkWorld (<[declaration_path E nitro := text]> (fs w))
                    (trace w ++ [WriteFile (declaration_path E nitro) text])).
Proof.
  intros Ht Hf. unfold writeTypes, writeFile. rewrite Ht. simpl.
  unfold bind, ret. now rewrite (perform_ok _ _ _ Hf).
Qed.

Lemma scanHandlers_ok E nitro hs w :
  scan E nitro = Ok hs ->
  scanHandlers E nitro w
  = (Ok (set_scannedHandlers hs nitro), mkWorld (fs w) (trace w ++ [ScanHandlers])).
Proof.
  intros H. unfold scanHandlers.
  rewrite (bind_ok _ _ _ _ _ (emit_run _ _)). now rewrite H.
Qed.

(** The handler given to [.catch] logs the message and throws the error
    again. *)
Lemma catch_rethrow E e w :
  fault E RollupRollup = Some e ->
  catch (perform E RollupRollup)
        (fun error => emit (LogError ("Rollup error: " +:+ message error)) ;;
                      throw error) w
  = (Throw e, mkWorld (fs w)
                (trace w ++ [RollupRollup; LogError ("Rollup error: " +:+ message e)])).
Proof.
  intros H. unfold catch. rewrite (perform_fail _ _ _ _ H).
  rewrite (bind_ok _ _ _ _ _ (emit_run _ _)). unfold throw. cbn [fs trace].
  now rewrite <- app_assoc.
Qed.

(** C1: when the scanner and the declaration writer have succeeded and
    [rollup.rollup] rejects with [e], [_build] rejects with the same [e];
    the calls it has issued are the scan, the write of the declaration
    file, the two log lines around the bundler call (the second one being
    the message of [e] behind the prefix [Rollup error: ]) and the bundler
    call itself.  Hence the bundle was not written, the [nitro:compiled]
    hook was not called, and no file other than the declaration file has
    changed: the manifest [nitro.json] is as it was. *)
Theorem build_rejection_promotes_nothing E nitro w hs text e :
  scan E nitro = Ok hs ->
  declaration_text E (set_scannedHandlers hs nitro) = Ok text ->
  fault E (WriteFile (declaration_path E nitro) text) = None ->
  fault E RollupRollup = Some e ->
  let dts := declaration_path E nitro in
  let manifest := resolve E [dir (output (options nitro)); "nitro.json"] in
  let issued := [ ScanHandlers; WriteFile dts text;
                  LogStart "Building server..."; RollupRollup;
                  LogError ("Rollup error: " +:+ message e) ] in
  (_build E nitro w).1 = Throw e
  /\ trace (_build E nitro w).2 = trace w ++ issued
  /\ ~ In BundleWrite issued
  /\ ~ In (CallHook "nitro:compiled") issued
  /\ (forall c, In (WriteFile manifest c) issued -> manifest = dts)
  /\ (forall file, file <> dts ->
        fs (_build E nitro w).2 !! file = fs w !! file).
Proof.
  intros Hscan Htext Hw Hr dts manifest issued.
  assert (Hrun : _build E nitro w
                 = (Throw e, mkWorld (<[dts := text]> (fs w)) (trace w ++ issued))).
  { unfold _build.
    rewrite (bind_ok _ _ _ _ _ (scanHandlers_ok E nitro hs w Hscan)).
    rewrite (bind_ok _ _ _ _ _
               (writeTypes_ok E (set_scannedHandlers hs nitro) text _ Htext Hw)).
    rewrite (bind_ok _ _ _ _ _ (emit_run _ _)).
    rewrite (bind_throw _ _ _ _ _ (catch_rethrow E e _ Hr)).
    unfold issued, dts. cbn [fs trace declaration_path set_scannedHandlers options].
    now rewrite <- !app_assoc. }
  rewrite Hrun. simpl. repeat split.
  - unfold issued. simpl. intros [H|[H|[H|[H|[H|[]]]]]]; discriminate.
  - unfold issued. simpl. intros [H|[H|[H|[H|[H|[]]]]]]; discriminate.
  - unfold issued. simpl.
    intros c [H|[H|[H|[H|[H|[]]]]]]; try discriminate. now injection H.
  - intros file Hne. now rewrite lookup_insert_ne.
Qed.

Lemma build_rejection_promotes_nothing_witness :
  let E := failingEnv is_rollup (Error "Unexpected token") in
  let r := _build E (sampleNitro nestedOutput [helloHandler] []) emptyWorld in
  r.1 = Throw (Error "Unexpected token")
  /\ last (trace r.2) = Some (LogError "Rollup error: Unexpected token")
  /\ fs r.2 !! "/app/.output/nitro.json" = None.
Proof.
  intros E r.
  destruct (declaration_text E (sampleNitro nestedOutput [helloHandler] [])) as [text|err] eqn:Ht;
    [|discriminate Ht].
  pose proof (build_rejection_promotes_nothing E
                (sampleNitro nestedOutput [helloHandler] []) emptyWorld
                [helloHandler] text (Error "Unexpected token")
                eq_refl Ht eq_refl eq_refl) as (H1 & H2 & _ & _ & _ & H6).
  split; [exact H1|]. split.
  - fold r in H2. rewrite H2. reflexivity.
  - fold r in H6. rewrite H6; [reflexivity | discriminate].
Defined.

(** ** [writeTypes] *)

(** C4: the text [writeTypes] produces is a function of the scanned
    handlers, the configured handlers, the auto-import text and the build
    directory: two invocations that agree on them produce the same text
    and issue the same calls, whatever the rest of the configuration and the
    state of the world; and a second invocation leaves the file store as
    the first one left it. *)
Theorem writeTypes_idempotent E n1 n2 w1 w2 :
  scannedHandlers n1 = scannedHandlers n2 ->
  handlers (options n1) = handlers (options n2) ->
  unimport n1 = unimport n2 ->
  buildDir (options n1) = buildDir (options n2) ->
  declaration_text E n1 = declaration_text E n2
  /\ (writeTypes E n1 w1).1 = (writeTypes E n2 w2).1
  /\ (exists issued,
        trace (writeTypes E n1 w1).2 = trace w1 ++ issued
        /\ trace (writeTypes E n2 w2).2 = trace w2 ++ issued)
  /\ fs (writeTypes E n2 (writeTypes E n1 w1).2).2 = fs (writeTypes E n1 w1).2.
Proof.
  intros Hs Hh Hu Hb.
  assert (Ht : declaration_text E n1 = declaration_text E n2).
  { unfold declaration_text, routeTypesOf, autoImportedTypes.
    now rewrite Hs, Hh, Hu, Hb. }
  assert (Hp : declaration_path E n1 = declaration_path E n2).
  { unfold declaration_path. now rewrite Hb. }
  split; [exact Ht|].
  unfold writeTypes, writeFile, perform, bind, lift.
  rewrite <- Ht, <- Hp.
  destruct (declaration_text E n1) as [text|err]; simpl.
  - destruct (fault E (WriteFile (declaration_path E n1) text)) as [err|]; simpl.
    + repeat split. eexists; split; reflexivity.
    + repeat split; [eexists; split; reflexivity|].
      apply insert_insert_eq.
  - repeat split. exists []. now rewrite !app_nil_r.
Qed.

Lemma writeTypes_idempotent_witness :
  declaration_text quietEnv (sampleNitro nestedOutput [helloHandler] [])
  = declaration_text quietEnv (sampleNitro siblingOutput [helloHandler] []).
Proof.
  exact (proj1 (writeTypes_idempotent quietEnv
                  (sampleNitro nestedOutput [helloHandler] [])
                  (sampleNitro siblingOutput [helloHandler] [])
                  emptyWorld emptyWorld eq_refl eq_refl eq_refl eq_refl)).
Defined.

(** Handlers without a string reference or without a route are passed
    over. *)
Lemma collect_skips E d mw rest o :
  handler mw = HandlerFn \/ route mw = None \/ route mw = Some "" ->
  collectRouteTypes E d (mw :: rest) o = collectRouteTypes E d rest o.
Proof.
  intros H. simpl. destruct (handler mw); [|reflexivity].
  destruct H as [H | [H | H]]; [discriminate | |]; now rewrite H.
Qed.

Lemma truthy_opt_some r : r <> "" -> Js.truthy_opt (Some r) = Some r.
Proof. destruct r; [congruence | reflexivity]. Qed.

(** A handler with a string reference and a route whose name is not a
    member of [Object.prototype] adds its type expression at the end of the
    entry of the route, which is created when the route has none. *)
Lemma collect_appends E d mw h r rest o :
  handler mw = HandlerPath h -> route mw = Some r -> r <> "" ->
  inherited r = false ->
  collectRouteTypes E d (mw :: rest) o
  = collectRouteTypes E d rest
      (set_own r (default [] (own r o)
                  ++ [type_of_import (strip_extension (relative E d h))]) o).
Proof.
  intros Hh Hr Hne Hi. simpl. rewrite Hh, Hr, (truthy_opt_some _ Hne).
  unfold push_route. rewrite Hi. now destruct (own r o).
Qed.

(** A route named like a member of [Object.prototype], met before the
    object has an own entry of that name, makes the loop throw. *)
Lemma collect_inherited_throws E d mw h r rest o :
  handler mw = HandlerPath h -> route mw = Some r ->
  inherited r = true -> own r o = None ->
  collectRouteTypes E d (mw :: rest) o
  = Throw (TypeError "routeTypes[mw.route].push is not a function").
Proof.
  intros Hh Hr Hi Ho. simpl. rewrite Hh, Hr.
  assert (Hne : r <> "") by (intros ->; discriminate Hi).
  rewrite (truthy_opt_some _ Hne). unfold push_route. now rewrite Ho, Hi.
Qed.

Lemma own_set_own r v o : own r (set_own r v o) = Some v.
Proof.
  induction o as [|[k x] o IH]; simpl.
  - now rewrite String.eqb_refl.
  - destruct (String.eqb r k) eqn:Heq; simpl; now rewrite Heq.
Qed.

Lemma all_lower_app_dot t u :
  Js.all_chars Js.is_lower (t +:+ String "." u) = false.
Proof.
  induction t as [|a t IH]; simpl; [reflexivity|].
  rewrite IH. apply andb_false_r.
Qed.

(** The stripped extension: a final dot followed by lower-case letters. *)
Lemma strip_extension_suffix pre ext :
  Js.nonempty ext = true -> Js.all_chars Js.is_lower ext = true ->
  strip_extension (pre +:+ String "." ext) = pre.
Proof.
  intros Hne Hlow. induction pre as [|a pre IH]; simpl.
  - now rewrite Hne, Hlow.
  - rewrite IH, all_lower_app_dot, andb_false_r. reflexivity.
Qed.

(** The scenario of the spec: one scanned handler for [/api/hello]
    implemented in [/src/api/hello.ts], no configured handler.  Whatever
    directory part [relative] computes, the interface has the one entry
    for ['/api/hello'], importing [hello] without its extension. *)
Lemma hello_scenario E out pre :
  let nitro := sampleNitro out [helloHandler] [] in
  relative E (join E [buildDir (options nitro); "types"]) "/src/api/hello.ts"
  = pre +:+ "hello.ts" ->
  routeTypesOf E nitro
  = Ok [("/api/hello", [type_of_import (pre +:+ "hello")])]
  /\ map interface_entry (entries [("/api/hello", [type_of_import (pre +:+ "hello")])])
     = [ "    '/api/hello': Awaited<ReturnType<typeof import('"
         +:+ (pre +:+ "hello") +:+ "').default>>" ].
Proof.
  intros nitro Hrel. split; [|reflexivity].
  unfold routeTypesOf.
  change (scannedHandlers nitro ++ handlers (options nitro)) with [helloHandler].
  rewrite (collect_appends E _ helloHandler "/src/api/hello.ts" "/api/hello")
    by (reflexivity || discriminate).
  rewrite Hrel.
  change (pre +:+ "hello.ts") with (pre +:+ ("hello" +:+ String "." "ts")).
  rewrite sapp_assoc.
  now rewrite strip_extension_suffix.
Qed.

(** C5, at the configured handler [{ route: 'constructor', handler:
    '/src/api/hello.ts' }]: the handler has a string reference and a route,
    yet no entry is added; [routeTypes['constructor']] is the inherited
    constructor of the object literal, so [writeTypes] throws a [TypeError]
    and writes nothing.  The same configuration with the route
    [/api/hello] is written as the claim says. *)
Theorem writeTypes_inherited_route_throws :
  Js.truthy_opt (route constructorHandler) = Some "constructor"
  /\ handler constructorHandler = HandlerPath "/src/api/hello.ts"
  /\ writeTypes quietEnv (sampleNitro nestedOutput [] [constructorHandler]) emptyWorld
     = (Throw (TypeError "routeTypes[mw.route].push is not a function"), emptyWorld)
  /\ routeTypesOf quietEnv (sampleNitro nestedOutput [helloHandler] [])
     = Ok [("/api/hello",
            ["Awaited<ReturnType<typeof import('../../../src/api/hello').default>>"])].
Proof. repeat split; reflexivity. Qed.

(** ** The template block of [build] *)

Lemma readFile_fails E file w :
  fs w !! file = None \/ fault E (ReadFile file) <> None ->
  exists err, readFile E file w
              = (Throw err, mkWorld (fs w) (trace w ++ [ReadFile file])).
Proof.
  unfold readFile. intros [H | H].
  - rewrite H. destruct (fault E (ReadFile file)); eexists; reflexivity.
  - destruct (fault E (ReadFile file)) as [err|]; [|congruence].
    eexists; reflexivity.
Qed.

(** C9: when the overlay maps the template source to the empty string,
    the contents are those of the file on disk, read with the failure
    handler [() => ''], exactly as if the overlay had no such entry; and
    when that read fails as well, the template block issues the read and
    nothing else (no hook, no module written) and [build] goes on with the
    bundling. *)
Theorem empty_overlay_entry_is_ignored E nitro w :
  let file := src (htmlTemplateOf E nitro) in
  vfs nitro !! file = Some "" ->
  loadContents E nitro file w
  = catch (readFile E file) (fun _ => ret EmptyString) w
  /\ compileHtmlTemplate E nitro w
     = compileHtmlTemplate E (without_overlay file nitro) w
  /\ (fs w !! file = None \/ fault E (ReadFile file) <> None ->
      compileHtmlTemplate E nitro w
      = (Ok tt, mkWorld (fs w) (trace w ++ [ReadFile file]))
      /\ build E nitro w
         = bundle E nitro (mkWorld (fs w) (trace w ++ [ReadFile file]))).
Proof.
  intros file Hv.
  assert (Hload : loadContents E nitro file w
                  = catch (readFile E file) (fun _ => ret EmptyString) w).
  { unfold loadContents. now rewrite Hv. }
  assert (Hload' : loadContents E (without_overlay file nitro) file w
                   = catch (readFile E file) (fun _ => ret EmptyString) w).
  { unfold loadContents, without_overlay. simpl. now rewrite lookup_delete_eq. }
  split; [exact Hload|]. split.
  - unfold compileHtmlTemplate, bind.
    change (htmlTemplateOf E (without_overlay file nitro)) with (htmlTemplateOf E nitro).
    fold file. now rewrite Hload, Hload'.
  - intros Hfail. destruct (readFile_fails E file w Hfail) as [err Herr].
    assert (Hc : compileHtmlTemplate E nitro w
                 = (Ok tt, mkWorld (fs w) (trace w ++ [ReadFile file]))).
    { unfold compileHtmlTemplate, bind. fold file. rewrite Hload.
      unfold catch. now rewrite Herr. }
    split; [exact Hc|].
    unfold build. now rewrite (bind_ok _ _ _ _ _ Hc).
Qed.

Lemma empty_overlay_entry_is_ignored_witness :
  compileHtmlTemplate quietEnv emptyOverlayNitro emptyWorld
  = (Ok tt, mkWorld ∅ [ReadFile templatePath]).
Proof.
  pose proof (empty_overlay_entry_is_ignored quietEnv emptyOverlayNitro emptyWorld
                eq_refl) as (_ & _ & H).
  exact (proj1 (H (or_introl eq_refl))).
Defined.

(** ** Shutdown of [_watch] *)


Lemma on_close_unassigned E st w :
  rollupWatcher st = None -> watch_step E Close st w = (Throw closeError, w).
Proof. intros H. simpl. unfold on_close. now rewrite H. Qed.

(** Only the continuation of the body of [reload] assigns the handle. *)
Lemma step_keeps_unassigned E ev st w st' w' :
  ev <> Resume -> rollupWatcher st = None ->
  watch_step E ev st w = (Ok st', w') -> rollupWatcher st' = None.
Proof.
  intros Hev Hst. destruct ev; simpl; [| |congruence|].
  - unfold on_all, reload, bind, emit, ret.
    destruct (existsb _ _); intros [= <- <-]; exact Hst.
  - unfold reload_start. destruct (rollupWatcher st) eqn:Hr; [discriminate|].
    destruct (phase st); unfold bind, emit, ret; intros [= <- <-];
      simpl; congruence.
  - unfold on_close. rewrite Hst. discriminate.
Qed.

Lemma run_keeps_unassigned E evs : forall st w st' w',
  Forall (fun ev => ev <> Resume) evs -> rollupWatcher st = None ->
  run_events E evs st w = (Ok st', w') -> rollupWatcher st' = None.
Proof.
  induction evs as [|ev evs IH]; intros st w st' w' Hall Hst Hrun.
  - injection Hrun as <- <-. exact Hst.
  - inversion Hall as [|? ? Hev Hrest]; subst.
    simpl in Hrun. unfold bind in Hrun.
    destruct (watch_step E ev st w) as [[st1|err] w1] eqn:Hstep; [|discriminate].
    eapply IH; [exact Hrest | | exact Hrun].
    eapply step_keeps_unassigned; eauto.
Qed.

(** C10: [_watch] leaves the handle of the bundler watch session
    unassigned, and so does the first run of [reload] up to the point where
    it awaits the scanner.  As long as no continuation of [reload] has run,
    the handler of the [close] hook throws a [TypeError] on reading [close]
    from the unassigned handle; the world is left as it was, so the
    filesystem watcher is not closed. *)
Theorem close_before_first_session E nitro w :
  let st0 := mkWatch nitro None 0 Idle 1 in
  let w0 := (_watch E nitro w).2 in
  (_watch E nitro w).1 = Ok st0
  /\ watch_step E Close st0 w0 = (Throw closeError, w0)
  /\ (exists st1 w1,
        watch_step E ReloadRun st0 w0 = (Ok st1, w1)
        /\ phase st1 = Scanning
        /\ watch_step E Close st1 w1 = (Throw closeError, w1))
  /\ (forall evs st w',
        Forall (fun ev => ev <> Resume) evs ->
        run_events E evs st0 w0 = (Ok st, w') ->
        rollupWatcher st = None
        /\ watch_step E Close st w' = (Throw closeError, w')).
Proof.
  intros st0 w0. split; [reflexivity|]. split; [reflexivity|]. split.
  - eexists; eexists. split; [reflexivity|]. split; reflexivity.
  - intros evs st w' Hall Hrun.
    assert (Hst : rollupWatcher st = None)
      by (eapply (run_keeps_unassigned E evs st0 w0); eauto).
    split; [exact Hst|]. now apply on_close_unassigned.
Qed.

Lemma close_before_first_session_witness :
  let nitro := sampleNitro nestedOutput [] [] in
  let r := run_events quietEnv [FsEvent "add"; ReloadRun; FsEvent "change"]
             (mkWatch nitro None 0 Idle 1) (_watch quietEnv nitro emptyWorld).2 in
  watch_step quietEnv Close
    (mkWatch nitro None 0 Scanning 2) r.2 = (Throw closeError, r.2).
Proof.
  intros nitro r.
  pose proof (close_before_first_session quietEnv nitro emptyWorld)
    as (_ & _ & _ & H).
  refine (proj2 (H [FsEvent "add"; ReloadRun; FsEvent "change"]
                   (mkWatch nitro None 0 Scanning 2) r.2 _ _)).
  - repeat constructor; discriminate.
  - reflexivity.
Defined.

(** ** The command hints of [_build] *)

Lemma ws_not_dot c : Js.is_ws c = true -> Ascii.eqb c "." = false.
Proof. destruct (Ascii.eqb_spec c "."); [subst; discriminate | reflexivity]. Qed.

Lemma ws_not_slash c : Js.is_ws c = true -> Ascii.eqb c "/" = false.
Proof. destruct (Ascii.eqb_spec c "/"); [subst; discriminate | reflexivity]. Qed.

Lemma span_non_ws_cons c t :
  span_non_ws (String c t)
  = if Js.is_ws c then (EmptyString, String c t)
    else (String c (span_non_ws t).1, (span_non_ws t).2).
Proof. simpl. destruct (Js.is_ws c); [reflexivity|]. now destruct (span_non_ws t). Qed.

(** A white-space character ends the run. *)
Lemma span_app_ws q c t :
  Js.is_ws c = true ->
  span_non_ws (q +:+ String c t)
  = ((span_non_ws q).1, (span_non_ws q).2 +:+ String c t).
Proof.
  intros Hc. induction q as [|a q IH].
  - rewrite sapp_nil_l, span_non_ws_cons, Hc. reflexivity.
  - rewrite sapp_cons, !span_non_ws_cons. destruct (Js.is_ws a); [reflexivity|].
    now rewrite IH.
Qed.

Lemma span_whole run :
  Js.has_char Js.is_ws run = false -> span_non_ws run = (run, EmptyString).
Proof.
  induction run as [|a run IH]; [reflexivity|]. intros H.
  cbn [Js.has_char] in H. apply orb_false_iff in H as [Ha Hrun].
  rewrite span_non_ws_cons, Ha, (IH Hrun). reflexivity.
Qed.

Lemma span_run run rest :
  Js.has_char Js.is_ws run = false ->
  rest = EmptyString \/ (exists c t, rest = String c t /\ Js.is_ws c = true) ->
  span_non_ws (run +:+ rest) = (run, rest).
Proof.
  intros Hrun [-> | (c & t & -> & Hc)].
  - rewrite sapp_nil_r. now apply span_whole.
  - rewrite (span_app_ws _ _ _ Hc), (span_whole _ Hrun). reflexivity.
Qed.

Lemma span_split s : s = (span_non_ws s).1 +:+ (span_non_ws s).2.
Proof.
  induction s as [|a s IH]; [reflexivity|].
  rewrite span_non_ws_cons. destruct (Js.is_ws a); [reflexivity|].
  cbn [fst snd]. now rewrite sapp_cons, <- IH.
Qed.

Lemma match_at_cons3 c c1 c2 t :
  match_at (String c (String c1 (String c2 t)))
  = if Js.is_ws c && Ascii.eqb c1 "." && Ascii.eqb c2 "/"
    then match span_non_ws t with
         | (EmptyString, _) => None
         | (run, rest) => Some (run, rest)
         end
    else None.
Proof. reflexivity. Qed.

Lemma match_at_intro c run rest :
  Js.is_ws c = true -> run <> EmptyString ->
  Js.has_char Js.is_ws run = false ->
  rest = EmptyString \/ (exists c' t, rest = String c' t /\ Js.is_ws c' = true) ->
  match_at (String c ("./" +:+ run +:+ rest)) = Some (run, rest).
Proof.
  intros Hc Hne Hrun Hrest.
  change (String c ("./" +:+ run +:+ rest))
    with (String c (String "." (String "/" (run +:+ rest)))).
  rewrite match_at_cons3, Hc, (span_run _ _ Hrun Hrest). simpl.
  destruct run; [congruence | reflexivity].
Qed.

Lemma match_at_inv s run rest :
  match_at s = Some (run, rest) ->
  exists c, s = String c ("./" +:+ run +:+ rest).
Proof.
  destruct s as [|c [|c1 [|c2 t]]]; try discriminate.
  rewrite match_at_cons3.
  destruct (Js.is_ws c); [|discriminate].
  destruct (Ascii.eqb_spec c1 "."); [subst|discriminate].
  destruct (Ascii.eqb_spec c2 "/"); [subst|discriminate]. simpl.
  pose proof (span_split t) as Ht.
  destruct (span_non_ws t) as [[|a r] u]; [discriminate|].
  intros [= <- <-]. exists c. now rewrite Ht at 1.
Qed.

(** A white-space character behind [p] does not change the match at the
    head of [p]. *)
Lemma match_at_app_ws a p c t :
  Js.is_ws c = true ->
  match_at (String a p +:+ String c t)
  = match match_at (String a p) with
    | Some (run, rest) => Some (run, rest +:+ String c t)
    | None => None
    end.
Proof.
  intros Hc. destruct p as [|c1 [|c2 q]].
  - change (match_at (String a (String c t)) = None).
    destruct t as [|c2 t]; [reflexivity|].
    now rewrite match_at_cons3, (ws_not_dot _ Hc), andb_false_r.
  - change (match_at (String a (String c1 (String c t))) = None).
    now rewrite match_at_cons3, (ws_not_slash _ Hc), andb_false_r.
  - change (String a (String c1 (String c2 q)) +:+ String c t)
      with (String a (String c1 (String c2 (q +:+ String c t)))).
    rewrite !match_at_cons3.
    destruct (Js.is_ws a && Ascii.eqb c1 "." && Ascii.eqb c2 "/"); [|reflexivity].
    rewrite (span_app_ws _ _ _ Hc).
    destruct (span_non_ws q) as [[|x r] u]; reflexivity.
Qed.

Lemma replaceAll_from_cons tmpl before skip c t :
  replaceAll_from tmpl before skip (String c t)
  = match skip with
    | S k => replaceAll_from tmpl (before +:+ String c EmptyString) k t
    | O =>
        match match_at (String c t) with
        | Some (run, rest) =>
            expand tmpl (String c ("./" +:+ run)) before rest run
            +:+ replaceAll_from tmpl (before +:+ String c EmptyString)
                  (2 + String.length run) t
        | None =>
            String c (replaceAll_from tmpl (before +:+ String c EmptyString) 0 t)
        end
    end.
Proof. reflexivity. Qed.

(** The characters of a match are passed over. *)
Lemma replaceAll_skip tmpl u : forall before rest,
  replaceAll_from tmpl before (String.length u) (u +:+ rest)
  = replaceAll_from tmpl (before +:+ u) 0 rest.
Proof.
  induction u as [|c u IH]; intros before rest.
  - now rewrite sapp_nil_l, sapp_nil_r.
  - rewrite sapp_cons, replaceAll_from_cons. cbn [String.length].
    rewrite IH. f_equal. now rewrite <- sapp_assoc.
Qed.

(** A string without a match is left as it is. *)
Lemma replaceAll_no_match tmpl s : forall before,
  has_match s = false -> replaceAll_from tmpl before 0 s = s.
Proof.
  induction s as [|c s IH]; intros before H; [reflexivity|].
  rewrite replaceAll_from_cons. cbn [has_match] in H.
  destruct (match_at (String c s)) as [[run rest]|]; [discriminate|].
  now rewrite IH.
Qed.

Section Hints.

Variable rOutput : string.
Hypothesis no_dollar : Js.has_char is_dollar rOutput = false.

Lemma expand_plain r matched before after g1 :
  Js.has_char is_dollar r = false ->
  expand (r +:+ "/$1") matched before after g1 = r +:+ "/" +:+ g1.
Proof.
  induction r as [|a r IH]; intros H.
  - reflexivity.
  - cbn [Js.has_char] in H. apply orb_false_iff in H as [Ha Hr].
    rewrite !sapp_cons. cbn [expand]. unfold is_dollar in Ha. rewrite Ha.
    cbn [negb]. now rewrite (IH Hr).
Qed.

Lemma expand_tmpl matched before after g1 :
  expand (hintTemplate rOutput) matched before after g1 = " " +:+ rOutput +:+ "/" +:+ g1.
Proof.
  unfold hintTemplate. change (" " +:+ rOutput +:+ "/$1") with ((" " +:+ rOutput) +:+ "/$1").
  rewrite expand_plain; [reflexivity|]. exact no_dollar.
Qed.

(** Without [$] in the output root, the part of the input already passed
    plays no role. *)
Lemma replaceAll_before s : forall before before' skip,
  replaceAll_from (hintTemplate rOutput) before skip s = replaceAll_from (hintTemplate rOutput) before' skip s.
Proof.
  induction s as [|c s IH]; intros before before' skip; [reflexivity|].
  rewrite !replaceAll_from_cons. destruct skip as [|k]; [|apply IH].
  destruct (match_at (String c s)) as [[run rest]|].
  - rewrite !expand_tmpl. f_equal. apply IH.
  - f_equal. apply IH.
Qed.

(** Matches do not reach across a white-space character. *)
Lemma replaceAll_app_ws c t :
  Js.is_ws c = true ->
  forall pre skip before,
    skip <= String.length pre ->
    replaceAll_from (hintTemplate rOutput) before skip (pre +:+ String c t)
    = replaceAll_from (hintTemplate rOutput) before skip pre
      +:+ replaceAll_from (hintTemplate rOutput) before 0 (String c t).
Proof.
  intros Hc. induction pre as [|a p IH]; intros skip before Hskip.
  - cbn [String.length] in Hskip. assert (skip = 0) as -> by lia. reflexivity.
  - destruct skip as [|k].
    + rewrite (replaceAll_from_cons _ _ 0 a p).
      rewrite sapp_cons, (replaceAll_from_cons _ _ 0 a (p +:+ String c t)).
      rewrite <- sapp_cons, (match_at_app_ws _ _ _ _ Hc).
      destruct (match_at (String a p)) as [[run rest]|] eqn:Hm.
      * destruct (match_at_inv _ _ _ Hm) as [a' Heq]. injection Heq as <- Hp.
        rewrite !expand_tmpl.
        rewrite IH.
        -- rewrite (replaceAll_before (String c t) _ before).
           now rewrite <- !sapp_assoc.
        -- rewrite Hp, !slength_app. cbn [String.length]. lia.
      * rewrite IH by lia.
        now rewrite (replaceAll_before (String c t) _ before).
    + rewrite sapp_cons, !replaceAll_from_cons.
      rewrite IH by (cbn [String.length] in Hskip; lia).
      now rewrite (replaceAll_before (String c t) _ before).
Qed.

Lemma replaceAll_match before c run rest :
  match_at (String c ("./" +:+ run +:+ rest)) = Some (run, rest) ->
  replaceAll_from (hintTemplate rOutput) before 0 (String c ("./" +:+ run +:+ rest))
  = " " +:+ rOutput +:+ "/" +:+ run +:+ replaceAll_from (hintTemplate rOutput) before 0 rest.
Proof.
  intros Hm. rewrite replaceAll_from_cons, Hm, expand_tmpl.
  change (2 + String.length run) with (String.length ("./" +:+ run)).
  change ("./" +:+ run +:+ rest) with (("./" +:+ run) +:+ rest).
  rewrite replaceAll_skip, (replaceAll_before rest _ before).
  now rewrite <- !sapp_assoc.
Qed.

End Hints.

(** With a tab in front of [./], the code writes a space where the claim
    keeps the tab. *)
Lemma rewrite_replaces_tab_by_space :
  rewriteRelativePaths "dist" ("node" +:+ tab +:+ "./server/index.mjs")
  = "node dist/server/index.mjs"
  /\ claimedRewrite "dist" ("node" +:+ tab +:+ "./server/index.mjs")
     = "node" +:+ tab +:+ "dist/server/index.mjs"
  /\ rewriteRelativePaths "dist" ("node" +:+ tab +:+ "./server/index.mjs")
     <> claimedRewrite "dist" ("node" +:+ tab +:+ "./server/index.mjs").
Proof.
  split; [reflexivity|]. split; [reflexivity|].
  vm_compute. discriminate.
Qed.

(** C8, amended: for an output root whose relative path [rOutput] has no
    [$], a template without a match is returned as it is; and every match,
    that is a white-space character, [./] and the longest run of characters
    that are not white space, is replaced by one space, [rOutput], a slash
    and the run, the text before and after it being rewritten in the same
    way.  With the output root [dist], [node ./server/index.mjs] becomes
    [node dist/server/index.mjs]. *)
Theorem rewriteRelativePaths_spec rOutput :
  Js.has_char is_dollar rOutput = false ->
  (forall s, has_match s = false -> rewriteRelativePaths rOutput s = s)
  /\ (forall pre c run rest,
        Js.is_ws c = true ->
        run <> EmptyString ->
        Js.has_char Js.is_ws run = false ->
        rest = EmptyString \/ (exists c' t, rest = String c' t /\ Js.is_ws c' = true) ->
        rewriteRelativePaths rOutput (pre +:+ String c ("./" +:+ run +:+ rest))
        = rewriteRelativePaths rOutput pre
          +:+ " " +:+ rOutput +:+ "/" +:+ run
          +:+ rewriteRelativePaths rOutput rest)
  /\ rewriteRelativePaths "dist" "node ./server/index.mjs"
     = "node dist/server/index.mjs".
Proof.
  intros Hd. split; [|split].
  - intros s Hs. now apply replaceAll_no_match.
  - intros pre c run rest Hc Hne Hrun Hrest. unfold rewriteRelativePaths.
    rewrite (replaceAll_app_ws rOutput Hd _ _ Hc) by lia.
    rewrite (replaceAll_match rOutput Hd _ _ _ _
               (match_at_intro _ _ _ Hc Hne Hrun Hrest)).
    reflexivity.
  - reflexivity.
Qed.

Lemma rewriteRelativePaths_spec_witness :
  rewriteRelativePaths "dist" ("cd ./app" +:+ String " " ("./" +:+ "run.sh" +:+ " --port 3000"))
  = rewriteRelativePaths "dist" "cd ./app"
    +:+ " " +:+ "dist" +:+ "/" +:+ "run.sh"
    +:+ rewriteRelativePaths "dist" " --port 3000".
Proof.
  pose proof (rewriteRelativePaths_spec "dist" eq_refl) as (_ & H & _).
  apply (H "cd ./app" " "%char "run.sh" " --port 3000").
  - reflexivity.
  - discriminate.
  - reflexivity.
  - right. exists " "%char, "--port 3000". split; reflexivity.
Defined.

(** * Further properties of the code *)

(** ** [prepare]: what is cleared and what is kept *)

Lemma lookup_emptyDir d (files : gmap string string) p :
  apply_effect (EmptyDir d) files !! p
  = if path_inside d p then None else files !! p.
Proof.
  cbn [apply_effect]. destruct (path_inside d p) eqn:Hp.
  - apply map_lookup_filter_None. right. intros x _. cbn. congruence.
  - destruct (files !! p) as [c|] eqn:Hl.
    + apply map_lookup_filter_Some. split; [exact Hl | exact Hp].
    + apply map_lookup_filter_None. now left.
Qed.

Lemma prepare_nested_clears_root_only_witness :
  trace (prepare quietEnv (sampleNitro nestedOutput [] []) emptyWorld).2
  = [EmptyDir "/app/.output"].
Proof.
  exact (prepare_nested_clears_root_only quietEnv (sampleNitro nestedOutput [] [])
           emptyWorld eq_refl eq_refl).
Defined.

Lemma prepare_disjoint_clears_three_witness :
  trace (prepare quietEnv
           (sampleNitro (mkOutput "/app/.output" "/srv/www" "/srv/functions") [] [])
           emptyWorld).2
  = [EmptyDir "/app/.output"; EmptyDir "/srv/www"; EmptyDir "/srv/functions"].
Proof.
  exact (proj2 (prepare_disjoint_clears_three quietEnv
                  (sampleNitro (mkOutput "/app/.output" "/srv/www" "/srv/functions") [] [])
                  emptyWorld (fun _ => eq_refl) eq_refl eq_refl)).
Defined.

(** After a successful [prepare] no file is left below the output root; a
    file that lies below none of the three output directories is as it
    was; and [prepare] creates no file. *)
Theorem prepare_empties_output_root E nitro w :
  (prepare E nitro w).1 = Ok tt ->
  (forall p, path_inside (dir (output (options nitro))) p = true ->
             fs (prepare E nitro w).2 !! p = None)
  /\ (forall p,
        path_inside (dir (output (options nitro))) p = false ->
        path_inside (publicDir (output (options nitro))) p = false ->
        path_inside (serverDir (output (options nitro))) p = false ->
        fs (prepare E nitro w).2 !! p = fs w !! p)
  /\ (forall p c, fs (prepare E nitro w).2 !! p = Some c -> fs w !! p = Some c).
Proof.
  unfold prepare, cleanupDir, bind, when, perform, ret.
  destruct (fault E (EmptyDir (dir (output (options nitro))))); [discriminate|].
  destruct (Js.startsWith (publicDir _) _); cbn [negb];
    [|destruct (fault E (EmptyDir (publicDir (output (options nitro))))); [discriminate|]];
    (destruct (Js.startsWith (serverDir _) _); cbn [negb];
     [|destruct (fault E (EmptyDir (serverDir (output (options nitro))))); [discriminate|]]);
    intros _; cbn [fst snd fs]; (split; [|split]).
  all: try (intros p Hd; rewrite ?lookup_emptyDir;
            repeat match goal with
                   | |- context [path_inside ?d p] => destruct (path_inside d p) eqn:?
                   end; congruence).
  all: try (intros p Hd Hp Hs; rewrite ?lookup_emptyDir, ?Hd, ?Hp, ?Hs; reflexivity).
  all: intros p c; rewrite ?lookup_emptyDir;
       repeat match goal with
              | |- context [path_inside ?d p] => destruct (path_inside d p)
              end; congruence.
Qed.

Lemma prepare_empties_output_root_witness :
  let w := mkWorld {[ "/app/.output/server/index.mjs" := "old";
                      "/app/src/index.ts" := "source" ]} [] in
  fs (prepare quietEnv (sampleNitro nestedOutput [] []) w).2
    !! "/app/.output/server/index.mjs" = None.
Proof.
  intros w.
  exact (proj1 (prepare_empties_output_root quietEnv (sampleNitro nestedOutput [] []) w
                  eq_refl) "/app/.output/server/index.mjs" eq_refl).
Defined.

(** When [prepare] rejects, the call it issued last is the clearing that
    rejected with that error: nothing is cleared after a failure. *)
Theorem prepare_stops_at_failure E nitro w e :
  (prepare E nitro w).1 = Throw e ->
  exists d, last (trace (prepare E nitro w).2) = Some (EmptyDir d)
            /\ fault E (EmptyDir d) = Some e.
Proof.
  unfold prepare, cleanupDir, bind, when, perform, ret.
  destruct (fault E (EmptyDir (dir (output (options nitro))))) as [e0|] eqn:H0.
  { intros [= <-]. eexists. split; [apply last_snoc | exact H0]. }
  destruct (Js.startsWith (publicDir _) _); cbn [negb].
  - destruct (Js.startsWith (serverDir _) _); cbn [negb]; [discriminate|].
    destruct (fault E (EmptyDir (serverDir (output (options nitro))))) as [e1|] eqn:H1;
      [|discriminate].
    intros [= <-]. eexists. split; [apply last_snoc | exact H1].
  - destruct (fault E (EmptyDir (publicDir (output (options nitro))))) as [e1|] eqn:H1.
    { intros [= <-]. eexists. split; [apply last_snoc | exact H1]. }
    destruct (Js.startsWith (serverDir _) _); cbn [negb]; [discriminate|].
    destruct (fault E (EmptyDir (serverDir (output (options nitro))))) as [e2|] eqn:H2;
      [|discriminate].
    intros [= <-]. eexists. split; [apply last_snoc | exact H2].
Qed.

Lemma prepare_stops_at_failure_witness :
  exists d,
    last (trace (prepare (failingEnv (fun _ => true) (Error "EACCES"))
                   (sampleNitro nestedOutput [] []) emptyWorld).2)
    = Some (EmptyDir d)
    /\ fault (failingEnv (fun _ => true) (Error "EACCES")) (EmptyDir d)
       = Some (Error "EACCES").
Proof.
  exact (prepare_stops_at_failure (failingEnv (fun _ => true) (Error "EACCES"))
           (sampleNitro nestedOutput [] []) emptyWorld (Error "EACCES") eq_refl).
Defined.

(** ** [build]: the template block *)

Lemma replace_html_suffix_html s :
  replace_html_suffix (s +:+ ".html") = s +:+ ".mjs".
Proof.
  induction s as [|a s IH]; [reflexivity|].
  rewrite !sapp_cons. cbn [replace_html_suffix]. rewrite IH.
  destruct (String.eqb_spec (s +:+ ".html") "html") as [Heq|_];
    [|now rewrite andb_false_r].
  apply (f_equal String.length) in Heq. rewrite slength_app in Heq.
  cbn [String.length] in Heq. lia.
Qed.

Lemma prefix_app_short p : forall s t,
  String.length p <= String.length s ->
  String.prefix p (s +:+ t) = String.prefix p s.
Proof.
  induction p as [|a p IH]; intros s t Hlen;
    [destruct s; [destruct t|]; reflexivity|].
  destruct s as [|b s]; [cbn [String.length] in Hlen; lia|].
  rewrite sapp_cons. cbn [String.prefix].
  destruct (ascii_dec a b); [|reflexivity].
  apply IH. cbn [String.length] in Hlen. lia.
Qed.

Lemma prefix_app_self p t : String.prefix p (p +:+ t) = true.
Proof.
  induction p as [|a p IH]; [destruct t; reflexivity|].
  rewrite sapp_cons. cbn [String.prefix]. now destruct (ascii_dec a a).
Qed.

Lemma drop_app_self p t : Js.drop (String.length p) (p +:+ t) = t.
Proof. induction p as [|a p IH]; [reflexivity | exact IH]. Qed.

Lemma replace_first_unfold pat rep s :
  Js.replace_first pat rep s
  = if String.prefix pat s then rep +:+ Js.drop (String.length pat) s
    else match s with
         | EmptyString => EmptyString
         | String c t => String c (Js.replace_first pat rep t)
         end.
Proof. destruct s; reflexivity. Qed.

(** The first occurrence of [pat] is the one behind [u] when [pat] does
    not occur earlier, that is, in [u] followed by all but the last
    character of [pat]. *)
Lemma replace_first_behind init l rep u :
  occurs (init +:+ String l EmptyString) (u +:+ init) = false ->
  Js.replace_first (init +:+ String l EmptyString) rep
    (u +:+ (init +:+ String l EmptyString))
  = u +:+ rep.
Proof.
  induction u as [|a u IH]; intros Hocc.
  - rewrite sapp_nil_l, replace_first_unfold, prefix_refl.
    rewrite <- (sapp_nil_r (init +:+ String l EmptyString)) at 2.
    now rewrite drop_app_self, sapp_nil_r.
  - rewrite sapp_cons in Hocc. cbn [occurs] in Hocc.
    apply orb_false_iff in Hocc as [Hhead Htail].
    rewrite <- sapp_cons in Hhead.
    rewrite replace_first_unfold.
    rewrite (sapp_assoc (String a u)), prefix_app_short, Hhead.
    + rewrite <- sapp_assoc, sapp_cons. now rewrite (IH Htail).
    + rewrite !slength_app. cbn [String.length]. lia.
Qed.

(** The compiled template goes next to its source: for a source
    [<base>/views/app.template.html] the destination is
    [<base>/views/document.template.mjs], provided [app.template.mjs] does
    not already occur in the path before the file name. *)
Theorem template_destination E nitro base :
  resolve E [buildDir (options nitro); "views/app.template.html"]
  = base +:+ "/views/app.template.html" ->
  occurs "app.template.mjs" (base +:+ "/views/app.template.mj") = false ->
  src (htmlTemplateOf E nitro) = base +:+ "/views/app.template.html"
  /\ dst (htmlTemplateOf E nitro) = base +:+ "/views/document.template.mjs".
Proof.
  intros Hres Hocc. unfold htmlTemplateOf. cbn [src dst]. rewrite Hres.
  split; [reflexivity|].
  change (base +:+ "/views/app.template.html")
    with (base +:+ ("/views/app.template" +:+ ".html")).
  rewrite sapp_assoc, replace_html_suffix_html, <- sapp_assoc.
  change ("/views/app.template" +:+ ".mjs")
    with ("/views/" +:+ ("app.template.mj" +:+ String "s" EmptyString)).
  rewrite sapp_assoc.
  rewrite (replace_first_behind "app.template.mj" "s" "document.template.mjs").
  - now rewrite <- sapp_assoc.
  - rewrite <- sapp_assoc. exact Hocc.
Qed.

Lemma template_destination_witness :
  dst (htmlTemplateOf quietEnv (sampleNitro nestedOutput [] []))
  = "/app/.nitro" +:+ "/views/document.template.mjs".
Proof.
  exact (proj2 (template_destination quietEnv (sampleNitro nestedOutput [] [])
                  "/app/.nitro" eq_refl eq_refl)).
Defined.

(** Non-empty contents in the overlay shadow the disk: the file is not
    read, the subscribers of [nitro:document] receive the overlay
    contents, and what they return is what is serialised and where it is
    written. *)
Theorem overlay_contents_are_compiled E nitro w c t :
  vfs nitro !! src (htmlTemplateOf E nitro) = Some c ->
  c <> EmptyString ->
  documentHook E (mkTemplate (src (htmlTemplateOf E nitro)) c
                             (dst (htmlTemplateOf E nitro))) = Ok t ->
  fault E (WriteFile (dst t) ("export default " +:+ serializeTemplate E (contents t)))
  = None ->
  compileHtmlTemplate E nitro w
  = (Ok tt,
     mkWorld (<[dst t := "export default " +:+ serializeTemplate E (contents t)]> (fs w))
             (trace w ++ [ CallHook "nitro:document";
                           WriteFile (dst t)
                             ("export default " +:+ serializeTemplate E (contents t)) ])).
Proof.
  intros Hv Hc Hhook Hw. unfold compileHtmlTemplate, loadContents.
  rewrite Hv, (truthy_opt_some _ Hc).
  rewrite (bind_ok (ret c) _ w c w eq_refl).
  assert (Ht : Js.truthy c = true) by (destruct c; [congruence | reflexivity]).
  rewrite Ht, (bind_ok _ _ _ _ _ (emit_run _ _)), Hhook.
  cbn [lift]. rewrite (bind_ok (ret t) _ _ t _ eq_refl).
  unfold writeFile. rewrite (perform_ok _ _ _ Hw). cbn [fs trace apply_effect].
  now rewrite <- app_assoc.
Qed.

Lemma overlay_contents_are_compiled_witness :
  let nitro := mkNitro (sampleOptions nestedOutput []) []
                       {[ templatePath := "<html></html>" ]} None in
  let w := mkWorld {[ templatePath := "<p>on disk</p>" ]} [] in
  fs (compileHtmlTemplate quietEnv nitro w).2
    !! "/app/.nitro/views/document.template.mjs"
  = Some "export default `<html></html>`".
Proof.
  intros nitro w.
  rewrite (overlay_contents_are_compiled quietEnv nitro w "<html></html>"
             (mkTemplate templatePath "<html></html>"
                         "/app/.nitro/views/document.template.mjs")
             eq_refl ltac:(discriminate) eq_refl eq_refl).
  reflexivity.
Defined.



(** ** [_build]: order and outcome of the calls *)



(** When every collaborator succeeds, [_build] scans, writes the
    declaration file, bundles, writes the bundle and then the manifest,
    renders the tree when the log level exceeds 1, calls [nitro:compiled]
    and logs a hint for each command template that is set; the manifest
    holds the preset and the two command templates as configured, and the
    entry returned is resolved from the output directory and the entry
    file name of the bundler configuration. *)
Theorem build_success E nitro w hs text :
  (forall e, fault E e = None) ->
  scan E nitro = Ok hs ->
  declaration_text E (set_scannedHandlers hs nitro) = Ok text ->
  let o := options nitro in
  let dts := declaration_path E nitro in
  let manifest := resolve E [dir (output o); "nitro.json"] in
  let json := stringify E (mkBuildInfo (now E) (preset o) (commands o)) in
  _build E nitro w
  = (Ok (resolve E [output_dir (rollupConfig o); entryFileNames (rollupConfig o)]),
     mkWorld (<[manifest := json]> (<[dts := text]> (fs w)))
       (trace w
        ++ [ ScanHandlers; WriteFile dts text;
             LogStart "Building server..."; RollupRollup;
             LogStart "Writing server bundle..."; BundleWrite;
             WriteFile manifest json; LogSuccess "Server built" ]
        ++ (if (1 <? logLevel o)%Z then [PrintFSTree (serverDir (output o))] else [])
        ++ [ CallHook "nitro:compiled" ]
        ++ hint_calls (relative E (cwd E) (dir (output o))) (commands o))).
Proof.
  intros Hf Hscan Htext o dts manifest json.
  assert (Hjson : stringify E (buildInfoOf E (set_scannedHandlers hs nitro)) = json).
  { unfold json, buildInfoOf, o. cbn [options set_scannedHandlers].
    now destruct (commands (options nitro)). }
  unfold _build, scanHandlers, writeTypes, writeFile, callHook, hint, hint_calls,
    when, catch, bind, emit, lift, ret, throw, perform.
  rewrite Hscan. cbn beta iota delta [fst snd fs trace]. rewrite Htext.
  cbn beta iota delta [fst snd fs trace]. rewrite Hjson.
  change (options (set_scannedHandlers hs nitro)) with o.
  change (declaration_path E (set_scannedHandlers hs nitro)) with dts.
  fold manifest. rewrite !Hf. cbn beta iota delta [fst snd fs trace].
  cbn [buildInfoOf bi_commands preview deploy options set_scannedHandlers].
  fold o.
  destruct (1 <? logLevel o)%Z; rewrite ?Hf; cbn beta iota delta [fst snd fs trace];
    destruct (Js.truthy_opt (preview (commands o)));
    cbn beta iota delta [fst snd fs trace];
    destruct (Js.truthy_opt (deploy (commands o)));
    cbn beta iota delta [fst snd fs trace apply_effect];
    rewrite <- ?app_assoc; reflexivity.
Qed.

Lemma build_success_witness :
  (_build quietEnv (sampleNitro nestedOutput [helloHandler] []) emptyWorld).1
  = Ok "/app/.output/server/index.mjs".
Proof.
  destruct (declaration_text quietEnv (sampleNitro nestedOutput [helloHandler] []))
    as [text|err] eqn:Ht; [|discriminate Ht].
  rewrite (build_success quietEnv (sampleNitro nestedOutput [helloHandler] [])
             emptyWorld [helloHandler] text (fun _ => eq_refl) eq_refl Ht).
  reflexivity.
Defined.

(** ** Which calls a computation can issue *)

Lemma emits_only_ret {A} P (a : A) : emits_only P (ret a).
Proof. intros w. exists []. now rewrite app_nil_r. Qed.

Lemma emits_only_throw {A} P e : emits_only P (@throw A e).
Proof. intros w. exists []. now rewrite app_nil_r. Qed.

Lemma emits_only_lift {A} P (r : Res A) : emits_only P (lift r).
Proof. destruct r; [apply emits_only_ret | apply emits_only_throw]. Qed.

Lemma emits_only_emit (P : Effect -> Prop) e : P e -> emits_only P (emit e).
Proof. intros H w. exists [e]. split; [reflexivity | now constructor]. Qed.

Lemma emits_only_perform E (P : Effect -> Prop) e : P e -> emits_only P (perform E e).
Proof.
  intros H w. exists [e]. unfold perform.
  destruct (fault E e); (split; [reflexivity | now constructor]).
Qed.

Lemma emits_only_readFile E (P : Effect -> Prop) file :
  P (ReadFile file) -> emits_only P (readFile E file).
Proof.
  intros H w. exists [ReadFile file]. unfold readFile.
  destruct (fault E (ReadFile file)), (fs w !! file);
    (split; [reflexivity | now constructor]).
Qed.

Lemma emits_only_bind {A B} P (m : M A) (k : A -> M B) :
  emits_only P m -> (forall a, emits_only P (k a)) -> emits_only P (bind m k).
Proof.
  intros Hm Hk w. unfold bind. destruct (Hm w) as (i1 & Ht1 & Hp1).
  destruct (m w) as [[a|e] w1]; cbn [snd] in Ht1.
  - destruct (Hk a w1) as (i2 & Ht2 & Hp2). exists (i1 ++ i2).
    split; [now rewrite Ht2, Ht1, app_assoc | now apply Forall_app].
  - exists i1. now split.
Qed.

Lemma emits_only_catch {A} P (m : M A) (h : JsError -> M A) :
  emits_only P m -> (forall e, emits_only P (h e)) -> emits_only P (catch m h).
Proof.
  intros Hm Hh w. unfold catch. destruct (Hm w) as (i1 & Ht1 & Hp1).
  destruct (m w) as [[a|e] w1]; cbn [snd] in Ht1.
  - exists i1. now split.
  - destruct (Hh e w1) as (i2 & Ht2 & Hp2). exists (i1 ++ i2).
    split; [now rewrite Ht2, Ht1, app_assoc | now apply Forall_app].
Qed.

Lemma emits_only_when P b (m : M unit) : emits_only P m -> emits_only P (when b m).
Proof. destruct b; [trivial | intros _; apply emits_only_ret]. Qed.

Ltac emits_only_tac :=
  repeat first
    [ apply emits_only_bind; [|intros ?]
    | apply emits_only_catch; [|intros ?]
    | apply emits_only_when
    | apply emits_only_ret
    | apply emits_only_throw
    | apply emits_only_lift
    | apply emits_only_emit; reflexivity
    | apply emits_only_perform; reflexivity
    | apply emits_only_readFile; reflexivity ].

Lemma writeTypes_emits E P nitro :
  (forall f c, P (WriteFile f c)) -> emits_only P (writeTypes E nitro).
Proof.
  intros H. unfold writeTypes, writeFile.
  apply emits_only_bind; [apply emits_only_lift|]. intros text.
  now apply emits_only_perform.
Qed.

Lemma build_oneshot_emits E nitro :
  emits_only (fun e => watch_call e = false) (_build E nitro).
Proof.
  unfold _build, scanHandlers, callHook, writeFile, hint.
  apply emits_only_bind; [emits_only_tac|]. intros n1.
  apply emits_only_bind; [now apply writeTypes_emits|]. intros _.
  emits_only_tac; destruct (Js.truthy_opt _); emits_only_tac.
Qed.

Lemma template_emits E (P : Effect -> Prop) nitro :
  (forall f, P (ReadFile f)) -> (forall f c, P (WriteFile f c)) ->
  (forall n, P (CallHook n)) ->
  emits_only P (compileHtmlTemplate E nitro).
Proof.
  intros Hr Hw Hh. unfold compileHtmlTemplate, loadContents, writeFile.
  apply emits_only_bind.
  - destruct (Js.truthy_opt _); [apply emits_only_ret|].
    apply emits_only_catch; [now apply emits_only_readFile|].
    intros _. apply emits_only_ret.
  - intros c. destruct (Js.truthy c); [|apply emits_only_ret].
    apply emits_only_bind; [now apply emits_only_emit|]. intros _.
    apply emits_only_bind; [apply emits_only_lift|]. intros t.
    now apply emits_only_perform.
Qed.

Lemma watch_step_emits E ev st :
  emits_only (fun e => oneshot_call e = false) (watch_step E ev st).
Proof.
  destruct ev; cbn [watch_step].
  - unfold on_all, reload. destruct (existsb _ _); emits_only_tac.
  - unfold reload_start. destruct (phase st); emits_only_tac.
    destruct (rollupWatcher st); emits_only_tac.
  - unfold reload_resume, startRollupWatcher.
    destruct (phase st); emits_only_tac.
  - unfold on_close. destruct (rollupWatcher st); emits_only_tac.
Qed.

(** The two modes of [build] do not mix.  In production mode no call of
    the watch coordinator is issued: no filesystem watcher, no [close]
    handler, no call of [reload], no bundler watch session.  In
    development mode neither [rollup.rollup] nor the write of a bundle is
    called, by [build] or by any later step of the watch coordinator. *)
Theorem build_modes_do_not_mix E nitro :
  (dev (options nitro) = false ->
   emits_only (fun e => watch_call e = false) (build E nitro))
  /\ (dev (options nitro) = true ->
      emits_only (fun e => oneshot_call e = false) (build E nitro))
  /\ (forall evs st,
        emits_only (fun e => oneshot_call e = false) (run_events E evs st)).
Proof.
  split; [|split].
  - intros Hdev. unfold build, bundle, callHook.
    cbn [dev options set_rollupConfig]. rewrite Hdev.
    apply emits_only_bind; [now apply template_emits|]. intros _.
    apply emits_only_bind; [now apply emits_only_perform|]. intros _.
    apply emits_only_bind; [apply build_oneshot_emits | intros ?; apply emits_only_ret].
  - intros Hdev. unfold build, bundle, callHook.
    cbn [dev options set_rollupConfig]. rewrite Hdev.
    apply emits_only_bind; [now apply template_emits|]. intros _.
    apply emits_only_bind; [now apply emits_only_perform|]. intros _.
    unfold _watch, reload. emits_only_tac.
  - induction evs as [|ev evs IH]; intros st; cbn [run_events].
    + apply emits_only_ret.
    + apply emits_only_bind; [apply watch_step_emits | intros st'; apply IH].
Qed.

Lemma build_modes_do_not_mix_witness :
  exists issued,
    trace (build quietEnv (sampleNitro nestedOutput [] []) emptyWorld).2
    = trace emptyWorld ++ issued
    /\ Forall (fun e => watch_call e = false) issued.
Proof.
  exact (proj1 (build_modes_do_not_mix quietEnv (sampleNitro nestedOutput [] []))
           eq_refl emptyWorld).
Defined.


(** ** [writeTypes]: the entries of the interface *)

Lemma own_set_own_ne r k v o : r <> k -> own r (set_own k v o) = own r o.
Proof.
  intros Hne. induction o as [|[k' x] o IH]; cbn [set_own own].
  - destruct (String.eqb_spec r k); [congruence | reflexivity].
  - destruct (String.eqb_spec k k') as [->|Hk]; cbn [own].
    + destruct (String.eqb_spec r k'); [congruence | reflexivity].
    + now rewrite IH.
Qed.

Lemma own_None_not_key r o : own r o = None -> ~ In r (map fst o).
Proof.
  induction o as [|[k x] o IH]; cbn [own map fst In]; [tauto|].
  destruct (String.eqb_spec r k) as [->|Hne]; [discriminate|].
  intros H [Heq|Hin]; [congruence | now apply IH].
Qed.

Lemma keys_set_own k v o :
  map fst (set_own k v o)
  = match own k o with Some _ => map fst o | None => map fst o ++ [k] end.
Proof.
  induction o as [|[k' x] o IH]; cbn [set_own own map fst]; [reflexivity|].
  destruct (String.eqb_spec k k') as [->|Hne]; cbn [map fst]; [reflexivity|].
  rewrite IH. now destruct (own k o).
Qed.

Lemma push_route_ok r t o o' :
  push_route r t o = Ok o' ->
  o' = set_own r (default [] (own r o) ++ [t]) o.
Proof.
  unfold push_route. destruct (own r o); cbn [from_option id].
  - now intros [= <-].
  - destruct (inherited r); [discriminate | now intros [= <-]].
Qed.

Lemma collect_cons_none E d mw rest o :
  typed_route E d mw = None ->
  collectRouteTypes E d (mw :: rest) o = collectRouteTypes E d rest o.
Proof.
  unfold typed_route. cbn [collectRouteTypes].
  destruct (handler mw); [|reflexivity].
  now destruct (Js.truthy_opt (route mw)).
Qed.

Lemma collect_cons_some E d mw r t rest o :
  typed_route E d mw = Some (r, t) ->
  collectRouteTypes E d (mw :: rest) o
  = match push_route r t o with
    | Ok o1 => collectRouteTypes E d rest o1
    | Throw e => Throw e
    end.
Proof.
  unfold typed_route. cbn [collectRouteTypes].
  destruct (handler mw); [|discriminate].
  destruct (Js.truthy_opt (route mw)); [|discriminate].
  now intros [= <- <-].
Qed.

Lemma types_for_cons E d r mw rest :
  types_for E d r (mw :: rest)
  = match typed_route E d mw with
    | Some (r', t) => if String.eqb r r' then t :: types_for E d r rest
                      else types_for E d r rest
    | None => types_for E d r rest
    end.
Proof.
  unfold types_for. cbn [omap list_omap].
  destruct (typed_route E d mw) as [[r' t]|]; [|reflexivity].
  now destruct (String.eqb r r').
Qed.

(** The loop adds to each entry the type expressions of the handlers of
    that route, in their order. *)
Lemma collect_own E d mws : forall o o',
  collectRouteTypes E d mws o = Ok o' ->
  forall r, default [] (own r o') = default [] (own r o) ++ types_for E d r mws.
Proof.
  induction mws as [|mw rest IH]; intros o o' Hrun r.
  - injection Hrun as <-. now rewrite app_nil_r.
  - rewrite types_for_cons.
    destruct (typed_route E d mw) as [[r0 t]|] eqn:Hty.
    + rewrite (collect_cons_some _ _ _ _ _ _ _ Hty) in Hrun.
      destruct (push_route r0 t o) as [o1|e] eqn:Hpush; [|discriminate].
      rewrite (IH _ _ Hrun r). apply push_route_ok in Hpush. subst o1.
      destruct (String.eqb_spec r r0) as [->|Hne].
      * rewrite own_set_own. cbn [from_option id]. now rewrite <- app_assoc.
      * now rewrite (own_set_own_ne _ _ _ _ Hne).
    + rewrite (collect_cons_none _ _ _ _ _ Hty) in Hrun. now apply IH.
Qed.

Lemma collect_nonempty E d mws : forall o o',
  (forall k v, own k o = Some v -> v <> []) ->
  collectRouteTypes E d mws o = Ok o' ->
  forall k v, own k o' = Some v -> v <> [].
Proof.
  induction mws as [|mw rest IH]; intros o o' Hinv Hrun.
  - now injection Hrun as <-.
  - destruct (typed_route E d mw) as [[r0 t]|] eqn:Hty.
    + rewrite (collect_cons_some _ _ _ _ _ _ _ Hty) in Hrun.
      destruct (push_route r0 t o) as [o1|e] eqn:Hpush; [|discriminate].
      apply push_route_ok in Hpush. subst o1.
      apply (IH (set_own r0 (default [] (own r0 o) ++ [t]) o)); [|exact Hrun].
      intros k v. destruct (String.eqb_spec k r0) as [->|Hne].
      * rewrite own_set_own. intros [= <-]. now destruct (default [] (own r0 o)).
      * rewrite (own_set_own_ne _ _ _ _ Hne). apply Hinv.
    + rewrite (collect_cons_none _ _ _ _ _ Hty) in Hrun. now apply (IH o).
Qed.

Lemma collect_nodup E d mws : forall o o',
  NoDup (map fst o) ->
  collectRouteTypes E d mws o = Ok o' -> NoDup (map fst o').
Proof.
  induction mws as [|mw rest IH]; intros o o' Hnd Hrun.
  - now injection Hrun as <-.
  - destruct (typed_route E d mw) as [[r0 t]|] eqn:Hty.
    + rewrite (collect_cons_some _ _ _ _ _ _ _ Hty) in Hrun.
      destruct (push_route r0 t o) as [o1|e] eqn:Hpush; [|discriminate].
      apply push_route_ok in Hpush. subst o1.
      apply (IH (set_own r0 (default [] (own r0 o) ++ [t]) o)); [|exact Hrun].
      rewrite keys_set_own. destruct (own r0 o) eqn:Hown; [exact Hnd|].
      apply NoDup_app. split; [exact Hnd|]. split.
      * intros x Hx Hx'. apply list_elem_of_In in Hx.
        apply list_elem_of_singleton in Hx'. subst x.
        now apply (own_None_not_key _ _ Hown).
      * apply NoDup_singleton.
    + rewrite (collect_cons_none _ _ _ _ _ Hty) in Hrun. now apply (IH o).
Qed.

(** The route-type map [writeTypes] builds has one entry per route, and
    the entry of a route lists the type expressions of exactly the
    handlers that have this route and a string reference: the scanned
    handlers first, then the configured ones, each group in its own
    order.  A route without such a handler has no entry. *)
Theorem routeTypes_grouping E nitro rt :
  routeTypesOf E nitro = Ok rt ->
  let d := join E [buildDir (options nitro); "types"] in
  NoDup (map fst rt)
  /\ forall r,
       own r rt
       = match types_for E d r (scannedHandlers nitro)
               ++ types_for E d r (handlers (options nitro)) with
         | [] => None
         | ts => Some ts
         end.
Proof.
  intros Hrun d. unfold routeTypesOf in Hrun. fold d in Hrun. split.
  - apply (collect_nodup _ _ _ _ _ (NoDup_nil_2 : NoDup (map fst [])) Hrun).
  - intros r.
    pose proof (collect_own _ _ _ _ _ Hrun r) as Hown.
    pose proof (collect_nonempty _ _ _ [] _ ltac:(discriminate) Hrun r) as Hne.
    cbn [own from_option id app] in Hown.
    unfold types_for in Hown. rewrite omap_app in Hown. fold (types_for E d r) in Hown.
    unfold types_for. rewrite <- Hown.
    destruct (own r rt) as [v|]; cbn [from_option id]; [|reflexivity].
    specialize (Hne v eq_refl). now destruct v.
Qed.

Lemma routeTypes_grouping_witness :
  own "/api/hello"
    [("/api/hello",
      ["Awaited<ReturnType<typeof import('../../../src/api/hello').default>>";
       "Awaited<ReturnType<typeof import('../../../src/api/hello.post').default>>"])]
  = Some
      ["Awaited<ReturnType<typeof import('../../../src/api/hello').default>>";
       "Awaited<ReturnType<typeof import('../../../src/api/hello.post').default>>"].
Proof.
  exact (proj2 (routeTypes_grouping quietEnv
                  (sampleNitro nestedOutput
                     [mkHandler None (HandlerPath "/src/middleware/log.ts"); helloHandler]
                     [mkHandler (Some "/api/hello") HandlerFn;
                      mkHandler (Some "/api/hello") (HandlerPath "/src/api/hello.post.ts")])
                  _ eq_refl) "/api/hello").
Defined.

Lemma insert_by_index_perm {A} (x : N * A) l : insert_by_index x l ≡ₚ x :: l.
Proof.
  induction l as [|y l IH]; cbn [insert_by_index]; [reflexivity|].
  destruct (x.1 <=? y.1)%N; [reflexivity|].
  rewrite IH. apply Permutation_swap.
Qed.

Lemma sort_by_index_perm {A} (l : list (N * A)) : foldr insert_by_index [] l ≡ₚ l.
Proof.
  induction l as [|x l IH]; cbn [foldr]; [reflexivity|].
  now rewrite insert_by_index_perm, IH.
Qed.

(** [Object.entries] reorders the entries and nothing else: every route
    of the map gets its line in the interface, once. *)
Theorem entries_permutation (o : RouteTypes) : entries o ≡ₚ o.
Proof.
  unfold entries. rewrite sort_by_index_perm.
  induction o as [|kv o IH]; [reflexivity|].
  unfold index_entries. cbn [omap list_omap]. fold (index_entries o).
  destruct (array_index kv.1) as [n|] eqn:Hidx.
  - rewrite (filter_cons_False
               (fun kv0 : string * list string => array_index kv0.1 = None) kv o)
      by congruence.
    cbn [map snd app]. now rewrite IH.
  - rewrite (filter_cons_True
               (fun kv0 : string * list string => array_index kv0.1 = None) kv o)
      by exact Hidx.
    rewrite <- Permutation_middle. now rewrite IH.
Qed.

(** ** [writeTypes]: the import path *)

Lemma strip_extension_split s :
  exists suffix,
    s = strip_extension s +:+ suffix
    /\ (suffix = EmptyString
        \/ exists ext, suffix = String "." ext
                       /\ Js.nonempty ext = true
                       /\ Js.all_chars Js.is_lower ext = true).
Proof.
  induction s as [|c t IH].
  - exists EmptyString. split; [reflexivity | now left].
  - cbn [strip_extension].
    destruct (Ascii.eqb_spec c ".") as [->|Hc]; cbn [andb].
    + destruct (Js.nonempty t && Js.all_chars Js.is_lower t) eqn:Hcond.
      * apply andb_true_iff in Hcond as [Hne Hlow].
        exists (String "." t). split; [reflexivity|]. right. now exists t.
      * destruct IH as (suffix & Heq & Hsuf). exists suffix.
        split; [now rewrite sapp_cons, <- Heq | exact Hsuf].
    + destruct IH as (suffix & Heq & Hsuf). exists suffix.
      split; [now rewrite sapp_cons, <- Heq | exact Hsuf].
Qed.

(** What [writeTypes] removes from the relative path of a handler is a
    final dot followed by lower-case letters, and nothing else: either the
    path ends in such an extension and is returned without it, or it does
    not and is returned whole (an extension with an upper-case letter or a
    digit, or a dot in a directory name, is kept). *)
Theorem strip_extension_spec s :
  (exists ext,
     Js.nonempty ext = true /\ Js.all_chars Js.is_lower ext = true
     /\ s = strip_extension s +:+ String "." ext)
  \/ (strip_extension s = s
      /\ forall pre ext,
           Js.nonempty ext = true -> Js.all_chars Js.is_lower ext = true ->
           s <> pre +:+ String "." ext).
Proof.
  destruct (strip_extension_split s) as (suffix & Heq & [-> | (ext & -> & Hne & Hlow)]).
  - right. rewrite sapp_nil_r in Heq. split; [now symmetry|].
    intros pre ext Hne Hlow Hs.
    pose proof (strip_extension_suffix pre ext Hne Hlow) as Hstrip.
    rewrite <- Hs, <- Heq in Hstrip. rewrite Hstrip in Hs.
    apply (f_equal String.length) in Hs. rewrite slength_app in Hs.
    cbn [String.length] in Hs. lia.
  - left. now exists ext.
Qed.

Lemma strip_extension_spec_witness :
  strip_extension "../handlers/Upload.TS" = "../handlers/Upload.TS"
  /\ "../handlers/Upload.TS" <> "../handlers/Upload" +:+ String "." "ts".
Proof.
  destruct (strip_extension_spec "../handlers/Upload.TS")
    as [(ext & _ & _ & Heq) | [Hsame Hno]].
  - apply (f_equal String.length) in Heq. rewrite slength_app in Heq.
    change (String.length "../handlers/Upload.TS") with 21 in Heq.
    change (strip_extension "../handlers/Upload.TS")
      with "../handlers/Upload.TS" in Heq.
    change (String.length "../handlers/Upload.TS") with 21 in Heq.
    cbn [String.length] in Heq. lia.
  - split; [exact Hsame|]. exact (Hno "../handlers/Upload" "ts" eq_refl eq_refl).
Defined.

(** ** [_watch]: the reload cycle and shutdown *)

Ltac run_watch :=
  repeat (progress
    (unfold on_close, reload_start, reload_resume, startRollupWatcher,
       writeTypes, writeFile, bind, emit, ret, lift, throw, perform;
     cbn beta iota delta
       [phase w_nitro rollupWatcher sessions reloadCalls fst snd fs trace])).

(** One run of the body of [reload] from an idle state: the previous
    bundler watch session, if there is one, is closed first; then the
    scanner runs, a new session is started and becomes the current one,
    and the declaration file is written from the handlers just scanned. *)
Theorem reload_cycle E st w hs text :
  phase st = Idle ->
  scan E (w_nitro st) = Ok hs ->
  declaration_text E (set_scannedHandlers hs (w_nitro st)) = Ok text ->
  fault E (WriteFile (declaration_path E (w_nitro st)) text) = None ->
  run_events E
    (ReloadRun :: match rollupWatcher st with Some _ => [Resume] | None => [] end
               ++ [Resume; Resume]) st w
  = (Ok (mkWatch (set_scannedHandlers hs (w_nitro st)) (Some (sessions st))
                 (S (sessions st)) Idle (reloadCalls st)),
     mkWorld (<[declaration_path E (w_nitro st) := text]> (fs w))
       (trace w
        ++ match rollupWatcher st with Some h => [RollupWatcherClose h] | None => [] end
        ++ [ ScanHandlers; RollupWatch (sessions st);
             WriteFile (declaration_path E (w_nitro st)) text ])).
Proof.
  destruct st as [n rw ss ph rc]. cbn [phase w_nitro rollupWatcher sessions reloadCalls].
  intros -> Hscan Htext Hw.
  destruct rw as [h|]; cbn [app run_events watch_step phase];
    run_watch; rewrite Hscan; run_watch; rewrite Htext; run_watch;
    change (declaration_path E (set_scannedHandlers hs n)) with (declaration_path E n);
    rewrite Hw; cbn [apply_effect]; rewrite <- ?app_assoc; reflexivity.
Qed.

Lemma reload_cycle_witness :
  let nitro := sampleNitro nestedOutput [] [] in
  (run_events quietEnv [ReloadRun; Resume; Resume; Resume]
     (mkWatch nitro (Some 0) 1 Idle 1) emptyWorld).1
  = Ok (mkWatch nitro (Some 1) 2 Idle 1).
Proof.
  intros nitro.
  destruct (declaration_text quietEnv nitro) as [text|err] eqn:Ht; [|discriminate Ht].
  exact (f_equal fst
           (reload_cycle quietEnv (mkWatch nitro (Some 0) 1 Idle 1) emptyWorld
              [] text eq_refl eq_refl Ht eq_refl)).
Defined.




(** Shutdown does not stop [reload]: when its body runs after the [close]
    handler, it closes the session the handler has already closed and
    starts a new one, which becomes the current session while the
    filesystem watcher stays closed. *)
Theorem reload_after_close_restarts E st w h hs :
  phase st = Idle ->
  rollupWatcher st = Some h ->
  scan E (w_nitro st) = Ok hs ->
  run_events E [Close; ReloadRun; Resume; Resume] st w
  = (Ok (mkWatch (set_scannedHandlers hs (w_nitro st)) (Some (sessions st))
                 (S (sessions st)) WritingTypes (reloadCalls st)),
     mkWorld (fs w)
       (trace w ++ [ RollupWatcherClose h; FsWatcherClose;
                     RollupWatcherClose h; ScanHandlers;
                     RollupWatch (sessions st) ])).
Proof.
  destruct st as [n rw ss ph rc]. cbn [phase w_nitro rollupWatcher sessions reloadCalls].
  intros -> -> Hscan.
  cbn [run_events watch_step phase].
  run_watch. rewrite Hscan. run_watch.
  rewrite <- ?app_assoc. reflexivity.
Qed.

Lemma reload_after_close_restarts_witness :
  let nitro := sampleNitro nestedOutput [] [] in
  trace (run_events quietEnv [Close; ReloadRun; Resume; Resume]
           (mkWatch nitro (Some 0) 1 Idle 1) emptyWorld).2
  = [RollupWatcherClose 0; FsWatcherClose; RollupWatcherClose 0; ScanHandlers;
     RollupWatch 1].
Proof.
  intros nitro.
  rewrite (reload_after_close_restarts quietEnv (mkWatch nitro (Some 0) 1 Idle 1)
             emptyWorld 0 [] eq_refl eq_refl eq_refl).
  reflexivity.
Defined.

(** ** [copyPublicAssets] *)

Section PublicAssetsProperties.

Context (E : Env).
Variable isDirectory : string -> M bool.
Variable copy : string -> string -> M unit.
Variable prettyPath : string -> string.

Lemma copyAssetDirs_absent publicDir assets : forall w,
  (forall a, In a assets -> forall w', isDirectory (asset_dir a) w' = (Ok false, w')) ->
  copyAssetDirs E isDirectory copy publicDir assets w = (Ok tt, w).
Proof.
  induction assets as [|a rest IH]; intros w Habs; [reflexivity|].
  cbn [copyAssetDirs].
  rewrite (bind_ok _ _ _ _ _ (Habs a (or_introl eq_refl) w)).
  cbn [when]. rewrite (bind_ok (ret tt) _ w tt w eq_refl).
  apply IH. intros x Hx. apply Habs. now right.
Qed.

(** Asset directories that do not exist are passed over: when none of the
    descriptors names a directory, nothing is copied, whatever [fse.copy]
    would do, and the success line is logged all the same. *)
Theorem copyPublicAssets_skips_absent nitro assets w :
  (forall a, In a assets -> forall w', isDirectory (asset_dir a) w' = (Ok false, w')) ->
  copyPublicAssets E isDirectory copy prettyPath nitro assets w
  = (Ok tt,
     mkWorld (fs w)
       (trace w ++ [LogSuccess ("Generated public "
                                +:+ prettyPath (publicDir (output (options nitro))))])).
Proof.
  intros Habs. unfold copyPublicAssets.
  now rewrite (bind_ok _ _ _ _ _ (copyAssetDirs_absent _ _ w Habs)).
Qed.


End PublicAssetsProperties.

Lemma copyPublicAssets_skips_absent_witness :
  copyPublicAssets quietEnv sampleIsDirectory sampleCopy (fun p => p)
    (sampleNitro nestedOutput [] [])
    [mkAsset "/app/assets" "/"; mkAsset "/app/static" "/static"] emptyWorld
  = (Ok tt, mkWorld ∅ [LogSuccess "Generated public /app/.output/public"]).
Proof.
  apply (copyPublicAssets_skips_absent quietEnv sampleIsDirectory sampleCopy).
  intros a [<- | [<- | []]] w'; reflexivity.
Defined.

